(** * The zipkin input plugin: service lifecycle

    A model of [plugins/inputs/zipkin/zipkin.go].  The plugin value
    ([*Zipkin]) is shared between the thread that calls [Start], [Stop] and
    [Gather] and the goroutines that [Start] launches; wait groups and HTTP
    servers live in a store and are named by their location, a nil pointer
    being [None].  The threads are interleaved step by step: [Gather] and
    [Start], which never block, are one step each; [Stop] and the goroutine
    take one step for each statement that blocks or that reads or writes
    what the other thread writes. *)

From Stdlib Require Import Ascii.
From stdpp Require Import base list strings pretty gmap.

(** ** Constants (zipkin.go, lines 17-29) *)

Definition DefaultPort : Z := 9411.
Definition DefaultRoute : string := "/api/v1/spans".
Definition DefaultShutdownTimeout : Z := 5.

(** ** The libraries the file calls *)

(** A Go [error] is identified with its message; nil is [None]. *)
Definition error := string.

(** Location of an object in a store. *)
Definition ptr := nat.

(** A [telegraf.Accumulator] is known by its identity; what zipkin.go itself
    does to it is the list of calls it makes on it (see [AccCall] below). *)
Definition Accumulator := nat.

Module strconv.
(** [strconv.Itoa]: the decimal form of an [int], with a leading minus
    sign for a negative one.  Go's [int] is bounded, [Z] is not; no
    statement below depends on the bound. *)
Definition Itoa (i : Z) : string := pretty i.
End strconv.

Module mux.
(** A [*mux.Router] is represented by the route paths registered on it. *)
Definition Router := list string.
Definition NewRouter : Router := [].
End mux.

Module context.
(** A [context.Context] is represented by its deadline, if it has one. *)
Record Context := { deadline : option Z }.
Definition Background : Context := {| deadline := None |}.
Definition DeadlineExceeded : error := "context deadline exceeded".

(** [context.WithTimeout(parent, timeout)] called when the clock reads
    [now]: the deadline is [now + timeout], or the parent's when that one
    is earlier. *)
Definition WithTimeout (parent : Context) (now timeout : Z) : Context :=
  {| deadline := Some (match deadline parent with
                       | None => now + timeout
                       | Some d => Z.min d (now + timeout)
                       end)%Z |}.
End context.

Module sync.
(** A [sync.WaitGroup] is its counter.  [Add] panics ([None]) when the
    counter would become negative; [Wait] returns only at zero. *)
Definition WaitGroup := Z.
Definition zero : WaitGroup := 0%Z.
Definition Add (delta : Z) (wg : WaitGroup) : option WaitGroup :=
  if (wg + delta <? 0)%Z then None else Some (wg + delta)%Z.
Definition Done (wg : WaitGroup) : option WaitGroup := Add (-1) wg.
Definition Wait_ready (wg : WaitGroup) : bool := (wg =? 0)%Z.
End sync.

Module http.
(** An [http.Server]: the two fields zipkin.go sets, and the part of its
    state that [ListenAndServe] and [Shutdown] communicate through.
    [busy_until] is the time at which the requests in flight will have been
    answered. *)
Record Server := {
  Addr : string;
  Handler : mux.Router;
  inShutdown : bool;
  listening : bool;
  busy_until : Z;
}.

Definition ErrServerClosed : error := "http: Server closed".
Definition ErrAddrInUse (addr : string) : error :=
  "listen tcp " +:+ addr +:+ ": bind: address already in use".

(** The address [ListenAndServe] listens on: [":http"] for a blank [Addr]. *)
Definition listen_on (srv : Server) : string :=
  match Addr srv with
  | EmptyString => ":http"
  | addr => addr
  end.

(** The port [net.Listen] reads in an address: the text after the last
    colon, with an optional sign, as a decimal number when it is one. *)
Fixpoint port_text (addr : string) : option string :=
  match addr with
  | EmptyString => None
  | String c rest =>
      match port_text rest with
      | Some t => Some t
      | None => if Ascii.eqb c ":"%char then Some rest else None
      end
  end.

Definition digit (c : Ascii.ascii) : option N :=
  let n := Ascii.N_of_ascii c in
  if (48 <=? n)%N && (n <=? 57)%N then Some (n - 48)%N else None.

Fixpoint number (s : string) (acc : N) : option N :=
  match s with
  | EmptyString => Some acc
  | String c rest => d ← digit c; number rest (10 * acc + d)%N
  end.

(** What the port of an address is for the listener: none written, not a
    number (a service name), out of range, zero (the host picks a free port
    at each call), or a fixed port. *)
Inductive PortKind :=
| Missing
| Service
| InvalidPort (text : string)
| Ephemeral
| Fixed.

Definition port_kind (addr : string) : PortKind :=
  match port_text addr with
  | None => Missing
  | Some t =>
      let '(negative, body) :=
        match t with
        | String "-"%char rest => (true, rest)
        | String "+"%char rest => (false, rest)
        | _ => (false, t)
        end in
      match number body 0 with
      | None => Service
      | Some n =>
          if (n =? 0)%N then Ephemeral
          else if negative || (65535 <? n)%N then InvalidPort t
          else Fixed
      end
  end.

Definition ErrMissingPort (addr : string) : error :=
  "listen tcp: address " +:+ addr +:+ ": missing port in address".
Definition ErrInvalidPort (text : string) : error :=
  "listen tcp: address " +:+ text +:+ ": invalid port".

(** The first half of [ListenAndServe], over the addresses [bound] on the
    host: it returns at once on a server that was shut down, on an address
    whose port cannot be read and on a fixed port that is taken, and
    otherwise binds and enters the accept loop (no error yet).  Port zero
    always binds, to a port of the host's choice that no address written
    here names.  Addresses are taken to collide when they are written the
    same, as those that zipkin.go builds are; a service name stands for the
    port it names. *)
Definition bind (srv : Server) (bound : list string)
  : Server * list string * option error :=
  let up := {| Addr := Addr srv; Handler := Handler srv; inShutdown := false;
               listening := true; busy_until := busy_until srv |} in
  if inShutdown srv then (srv, bound, Some ErrServerClosed)
  else
    match port_kind (listen_on srv) with
    | Missing => (srv, bound, Some (ErrMissingPort (listen_on srv)))
    | InvalidPort text => (srv, bound, Some (ErrInvalidPort text))
    | Ephemeral => (up, bound, None)
    | Service | Fixed =>
        if bool_decide (listen_on srv ∈ bound) then
          (srv, bound, Some (ErrAddrInUse (listen_on srv)))
        else (up, listen_on srv :: bound, None)
    end.

(** The listener is closed: by [Shutdown], or when the accept loop fails. *)
Definition close_listener (srv : Server) (bound : list string)
  : Server * list string :=
  if listening srv then
    ({| Addr := Addr srv; Handler := Handler srv;
        inShutdown := inShutdown srv; listening := false;
        busy_until := busy_until srv |},
     match port_kind (listen_on srv) with
     | Service | Fixed => filter (λ a, a ≠ listen_on srv) bound
     | _ => bound
     end)
  else (srv, bound).

(** [srv.Shutdown(ctx)] called at time [now]: marks the server as shut
    down and closes its listener, and returns nil once the connections are
    idle, or the context's error when its deadline comes first.  The result
    carries the time at which the call returns. *)
Definition Shutdown (ctx : context.Context) (now : Z) (srv : Server)
    (bound : list string) : Server * list string * Z * option error :=
  let '(srv1, bound') := close_listener srv bound in
  let srv' := {| Addr := Addr srv1; Handler := Handler srv1;
                 inShutdown := true; listening := listening srv1;
                 busy_until := busy_until srv1 |} in
  if (busy_until srv <=? now)%Z then (srv', bound', now, None)
  else match context.deadline ctx with
       | None => (srv', bound', busy_until srv, None)
       | Some d =>
           if (busy_until srv <=? d)%Z then (srv', bound', busy_until srv, None)
           else (srv', bound', Z.max now d, Some context.DeadlineExceeded)
       end.
End http.

(** ** The capability contracts (zipkin.go, lines 31-42) *)

(** Only the identity of a [Recorder] matters to the lifecycle. *)
Inductive Recorder := LineProtocolConverter (acc : Accumulator).

(** Modelled from the spec: [NewLineProtocolConverter] is not in this file;
    the recorder it returns forwards into the accumulator it is given. *)
Definition NewLineProtocolConverter (acc : Accumulator) : Recorder :=
  LineProtocolConverter acc.

(** [Handler] is an interface with the one method [Register], which may add
    routes to the router and returns an [error]. *)
Record Handler := {
  Register : mux.Router → Recorder → mux.Router * option error;
}.

(** Modelled from the spec: [NewSpanHandler] is not in this file; the default
    handler is bound to the route path it is given, and registering it adds
    that route and succeeds. *)
Definition NewSpanHandler (path : string) : Handler :=
  {| Register := λ router _, (router ++ [path], None) |}.

(** ** The plugin value (zipkin.go, lines 89-96) *)

Record Zipkin := {
  ServiceAddress : string;
  Port : Z;
  Path : string;
  handler : option Handler;
  server : option ptr;
  waitGroup : option ptr;
}.

(** [Description] and [SampleConfig] (lines 99-106). *)
Definition sampleConfig : string :=
  String.concat (String (Ascii.ascii_of_nat 10) EmptyString)
    [EmptyString; "  ##"; "  # path = /path/your/zipkin/impl/posts/to";
     "  # port = <port your service posts to>"; EmptyString].

Definition Description (z : Zipkin) : string :=
  "Allows for the collection of zipkin tracing spans for storage in InfluxDB".

Definition SampleConfig (z : Zipkin) : string := sampleConfig.

(** ** Registration of the plugin (zipkin.go, lines 160-167) *)

Module inputs.
(** Modelled from the spec: the table of plugin factories belongs to the
    host runtime; [Add] enters a factory under a name. *)
Definition Creator := unit → Zipkin.
Definition Add (name : string) (creator : Creator)
    (Inputs : gmap string Creator) : gmap string Creator :=
  <[name := creator]> Inputs.
End inputs.

Definition init (Inputs : gmap string inputs.Creator)
  : gmap string inputs.Creator :=
  inputs.Add "zipkin"
    (λ _, {| ServiceAddress := EmptyString; Port := DefaultPort;
             Path := DefaultRoute; handler := None; server := None;
             waitGroup := None |})
    Inputs.

(** ** The world the plugin runs in *)

(** Where a goroutine launched by [Start] stands (lines 123-128, and the body
    of [Listen], lines 144-158).  The if statement of lines 149-154 is a test
    and an assignment on the shared value, with no lock: a goroutine at
    [pc_Server] may go through both in one piece, or make the test alone
    and stand at [pc_Assign] while others move. *)
Inductive PC :=
| pc_Add                              (* wg.Add(1); defer wg.Done() *)
| pc_Register                         (* router, converter, z.handler.Register *)
| pc_Server (router : mux.Router)     (* if z.server == nil { z.server = ... } *)
| pc_Assign (router : mux.Router)     (* z.server = ..., the test having found nil *)
| pc_ListenAndServe                   (* z.server.ListenAndServe(): bind *)
| pc_Serving (srv : ptr)              (* ... its accept loop *)
| pc_Err (err : option error)         (* if err != nil { acc.AddError(...) } *)
| pc_Done (panicking : bool)          (* the deferred wg.Done() *)
| pc_Exit                             (* the goroutine has returned *)
| pc_Crash.                           (* the goroutine died of a panic *)

(** A goroutine: the variables its closure captured ([wg] and [acc]), and
    where it stands. *)
Record Goroutine := {
  g_wg : ptr;
  g_acc : Accumulator;
  g_pc : PC;
}.

(** A call that zipkin.go makes on an accumulator: the [AddError] of line
    156, with the goroutine that made it.  What the recorder of line 146
    writes for the requests it is handed is the converter's own doing, in
    another file, and is not recorded here. *)
Inductive AccCall := AddError (g : nat) (acc : Accumulator) (e : error).

(** How a call ends for its caller.  A panic leaves the call and is the
    caller's to deal with: the world only records it. *)
Inductive Outcome := Returned (err : option error) | Panicked.

(** Where a running [Stop] stands (lines 134-140).  Its two [defer]
    statements fix the context and the receiver of [Wait] before
    [Shutdown] is called; deferred calls run last-in first-out. *)
Inductive StopPC :=
| sp_Shutdown                         (* z.server.Shutdown(ctx) *)
| sp_Wait                             (* deferred: z.waitGroup.Wait() *)
| sp_Cancel.                          (* deferred: cancel(), then leave *)

Record StopFrame := {
  s_ctx : context.Context;
  s_wg : option ptr;
  s_pc : StopPC;
  s_panicking : bool;
}.

(** The thread that calls the plugin is between two calls, or inside [Stop]
    (the only call that can block). *)
Inductive Caller :=
| Idle (last : option Outcome)
| InStop (f : StopFrame).

Record World := {
  zip : Zipkin;                       (* the value behind the *Zipkin *)
  wgs : list sync.WaitGroup;          (* store of wait groups *)
  servers : list http.Server;         (* store of HTTP servers *)
  goroutines : list Goroutine;        (* launched by Start, in order *)
  acc_calls : list AccCall;           (* calls by Listen, in order *)
  logs : list string;                 (* lines written by line 115 *)
  bound : list string;                (* addresses bound on the host *)
  clock : Z;
  caller : Caller;
  crashed : bool;                     (* a goroutine's panic ended the process *)
}.

Definition with_zip (z : Zipkin) (w : World) : World :=
  {| zip := z; wgs := wgs w; servers := servers w; goroutines := goroutines w;
     acc_calls := acc_calls w; logs := logs w; bound := bound w;
     clock := clock w; caller := caller w; crashed := crashed w |}.

Definition with_wgs (l : list sync.WaitGroup) (w : World) : World :=
  {| zip := zip w; wgs := l; servers := servers w; goroutines := goroutines w;
     acc_calls := acc_calls w; logs := logs w; bound := bound w;
     clock := clock w; caller := caller w; crashed := crashed w |}.

Definition with_servers (l : list http.Server) (w : World) : World :=
  {| zip := zip w; wgs := wgs w; servers := l; goroutines := goroutines w;
     acc_calls := acc_calls w; logs := logs w; bound := bound w;
     clock := clock w; caller := caller w; crashed := crashed w |}.

Definition with_goroutines (l : list Goroutine) (w : World) : World :=
  {| zip := zip w; wgs := wgs w; servers := servers w; goroutines := l;
     acc_calls := acc_calls w; logs := logs w; bound := bound w;
     clock := clock w; caller := caller w; crashed := crashed w |}.

Definition with_acc_calls (l : list AccCall) (w : World) : World :=
  {| zip := zip w; wgs := wgs w; servers := servers w;
     goroutines := goroutines w; acc_calls := l; logs := logs w;
     bound := bound w; clock := clock w; caller := caller w;
     crashed := crashed w |}.

Definition with_logs (l : list string) (w : World) : World :=
  {| zip := zip w; wgs := wgs w; servers := servers w;
     goroutines := goroutines w; acc_calls := acc_calls w; logs := l;
     bound := bound w; clock := clock w; caller := caller w;
     crashed := crashed w |}.

Definition with_bound (l : list string) (w : World) : World :=
  {| zip := zip w; wgs := wgs w; servers := servers w;
     goroutines := goroutines w; acc_calls := acc_calls w; logs := logs w;
     bound := l; clock := clock w; caller := caller w; crashed := crashed w |}.

Definition with_clock (t : Z) (w : World) : World :=
  {| zip := zip w; wgs := wgs w; servers := servers w;
     goroutines := goroutines w; acc_calls := acc_calls w; logs := logs w;
     bound := bound w; clock := t; caller := caller w; crashed := crashed w |}.

Definition with_caller (c : Caller) (w : World) : World :=
  {| zip := zip w; wgs := wgs w; servers := servers w;
     goroutines := goroutines w; acc_calls := acc_calls w; logs := logs w;
     bound := bound w; clock := clock w; caller := c; crashed := crashed w |}.

Definition with_crashed (b : bool) (w : World) : World :=
  {| zip := zip w; wgs := wgs w; servers := servers w;
     goroutines := goroutines w; acc_calls := acc_calls w; logs := logs w;
     bound := bound w; clock := clock w; caller := caller w; crashed := b |}.

(** Assignments to the three unexported fields of the plugin value. *)
Definition set_handler (h : option Handler) (z : Zipkin) : Zipkin :=
  {| ServiceAddress := ServiceAddress z; Port := Port z; Path := Path z;
     handler := h; server := server z; waitGroup := waitGroup z |}.

Definition set_server (s : option ptr) (z : Zipkin) : Zipkin :=
  {| ServiceAddress := ServiceAddress z; Port := Port z; Path := Path z;
     handler := handler z; server := s; waitGroup := waitGroup z |}.

Definition set_waitGroup (g : option ptr) (z : Zipkin) : Zipkin :=
  {| ServiceAddress := ServiceAddress z; Port := Port z; Path := Path z;
     handler := handler z; server := server z; waitGroup := g |}.

Definition set_pc (pc : PC) (g : Goroutine) : Goroutine :=
  {| g_wg := g_wg g; g_acc := g_acc g; g_pc := pc |}.

Definition log_Println (line : string) (w : World) : World :=
  with_logs (logs w ++ [line]) w.

(** The [go] statement: the new goroutine is created, not run. *)
Definition go (g : Goroutine) (w : World) : World :=
  with_goroutines (goroutines w ++ [g]) w.

Definition acc_AddError (g : nat) (acc : Accumulator) (e : error) (w : World)
  : World :=
  with_acc_calls (acc_calls w ++ [AddError g acc e]) w.

Definition set_goroutine (i : nat) (pc : PC) (w : World) : World :=
  with_goroutines (alter (set_pc pc) i (goroutines w)) w.

(** A panic that no deferred call is left to see: the process dies. *)
Definition crash (i : nat) (w : World) : World :=
  with_crashed true (set_goroutine i pc_Crash w).

(** ** The methods *)

(** [Gather] (line 110). *)
Definition Gather (acc : Accumulator) (w : World) : World * option error :=
  (w, None).

(** [Start] (lines 114-131).  None of its statements blocks; the goroutine is
    handed to the scheduler and [Start] returns. *)
Definition Start (acc : Accumulator) (w : World) : World * option error :=
  let w := log_Println "starting..." w in
  let w := match handler (zip w) with
           | None =>
               with_zip (set_handler (Some (NewSpanHandler (Path (zip w))))
                           (zip w)) w
           | Some _ => w
           end in
  let wg := length (wgs w) in                         (* var wg sync.WaitGroup *)
  let w := with_wgs (wgs w ++ [sync.zero]) w in
  let w := with_zip (set_waitGroup (Some wg) (zip w)) w in (* z.waitGroup = &wg *)
  let w := go {| g_wg := wg; g_acc := acc; g_pc := pc_Add |} w in
  (w, None).

(** [Listen], lines 145-147: the router, the converter and the registration.
    A nil [z.handler] panics ([None]); the error [Register] returns is not
    looked at. *)
Definition Listen_Register (acc : Accumulator) (z : Zipkin)
  : option mux.Router :=
  match handler z with
  | None => None
  | Some h =>
      let router := mux.NewRouter in
      let converter := NewLineProtocolConverter acc in
      let '(router, _) := Register h router converter in
      Some router
  end.

(** [Listen], lines 149-154. *)
Definition Listen_server (router : mux.Router) (w : World) : World :=
  match server (zip w) with
  | Some _ => w
  | None =>
      let srv := {| http.Addr := ":" +:+ strconv.Itoa (Port (zip w));
                    http.Handler := router;
                    http.inShutdown := false;
                    http.listening := false;
                    http.busy_until := clock w |} in
      let p := length (servers w) in
      with_zip (set_server (Some p) (zip w))
        (with_servers (servers w ++ [srv]) w)
  end.

(** [Listen], lines 150-153 alone: the assignment, by a goroutine whose test
    found [z.server] nil, whatever the field holds by now. *)
Definition Listen_assign (router : mux.Router) (w : World) : World :=
  let srv := {| http.Addr := ":" +:+ strconv.Itoa (Port (zip w));
                http.Handler := router;
                http.inShutdown := false;
                http.listening := false;
                http.busy_until := clock w |} in
  let p := length (servers w) in
  with_zip (set_server (Some p) (zip w))
    (with_servers (servers w ++ [srv]) w).

(** [Listen], lines 155-157, once [ListenAndServe] has returned [err]. *)
Definition Listen_report (g : nat) (acc : Accumulator) (err : option error)
    (w : World) : World :=
  match err with
  | Some e => acc_AddError g acc ("E! Error listening: " +:+ e) w
  | None => w
  end.

(** One step of goroutine [i]; [None] when it is blocked or gone. *)
Definition step_goroutine (i : nat) (w : World) : option World :=
  g ← goroutines w !! i;
  match g_pc g with
  | pc_Add =>
      n ← wgs w !! g_wg g;
      match sync.Add 1 n with
      | Some n' =>
          Some (set_goroutine i pc_Register
                  (with_wgs (<[g_wg g := n']> (wgs w)) w))
      | None => Some (crash i w)
      end
  | pc_Register =>
      match Listen_Register (g_acc g) (zip w) with
      | Some router => Some (set_goroutine i (pc_Server router) w)
      | None => Some (set_goroutine i (pc_Done true) w)
      end
  | pc_Server router =>
      Some (set_goroutine i pc_ListenAndServe (Listen_server router w))
  | pc_Assign router =>
      Some (set_goroutine i pc_ListenAndServe (Listen_assign router w))
  | pc_ListenAndServe =>
      match server (zip w) with
      | None => Some (set_goroutine i (pc_Done true) w)
      | Some p =>
          srv ← servers w !! p;
          let '(srv', bound', err) := http.bind srv (bound w) in
          let w' := with_bound bound'
                      (with_servers (<[p := srv']> (servers w)) w) in
          Some (set_goroutine i
                  (match err with
                   | None => pc_Serving p
                   | Some _ => pc_Err err
                   end) w')
      end
  | pc_Serving p =>
      srv ← servers w !! p;
      if http.inShutdown srv
      then Some (set_goroutine i (pc_Err (Some http.ErrServerClosed)) w)
      else None
  | pc_Err err =>
      Some (set_goroutine i (pc_Done false) (Listen_report i (g_acc g) err w))
  | pc_Done panicking =>
      n ← wgs w !! g_wg g;
      match sync.Done n with
      | Some n' =>
          let w' := with_wgs (<[g_wg g := n']> (wgs w)) w in
          Some (if panicking then crash i w' else set_goroutine i pc_Exit w')
      | None => Some (crash i w)
      end
  | pc_Exit | pc_Crash => None
  end.

(** Entering [Stop] (lines 135-138): the context, and the two [defer]s. *)
Definition Stop_enter (w : World) : World :=
  let ctx := context.WithTimeout context.Background (clock w)
               DefaultShutdownTimeout in
  with_caller (InStop {| s_ctx := ctx; s_wg := waitGroup (zip w);
                         s_pc := sp_Shutdown; s_panicking := false |}) w.

Definition at_pc (pc : StopPC) (panicking : bool) (f : StopFrame) : Caller :=
  InStop {| s_ctx := s_ctx f; s_wg := s_wg f; s_pc := pc;
            s_panicking := panicking |}.

(** One step of a running [Stop]; [None] when it is blocked.  A nil receiver
    panics, in [Shutdown] as in [Wait]; what [Shutdown] returns is not looked
    at. *)
Definition step_Stop (f : StopFrame) (w : World) : option World :=
  match s_pc f with
  | sp_Shutdown =>
      match server (zip w) with
      | None => Some (with_caller (at_pc sp_Wait true f) w)
      | Some p =>
          srv ← servers w !! p;
          let '(srv', bound', t, _) :=
            http.Shutdown (s_ctx f) (clock w) srv (bound w) in
          Some (with_caller (at_pc sp_Wait (s_panicking f) f)
                  (with_clock t
                     (with_bound bound'
                        (with_servers (<[p := srv']> (servers w)) w))))
      end
  | sp_Wait =>
      match s_wg f with
      | None => Some (with_caller (at_pc sp_Cancel true f) w)
      | Some p =>
          n ← wgs w !! p;
          if sync.Wait_ready n
          then Some (with_caller (at_pc sp_Cancel (s_panicking f) f) w)
          else None
      end
  | sp_Cancel =>
      Some (with_caller
              (Idle (Some (if s_panicking f then Panicked else Returned None)))
              w)
  end.

(** ** The interleaving semantics *)

Inductive Label :=
| CallGather (acc : Accumulator)      (* the caller invokes Gather *)
| CallStart (acc : Accumulator)       (* the caller invokes Start *)
| CallStop                            (* the caller invokes Stop *)
| RunStop                             (* the running Stop moves on *)
| Run (i : nat)                       (* goroutine i moves on *)
| Test (i : nat)                      (* goroutine i tests z.server, no more *)
| AcceptError (i : nat) (e : error)   (* the accept loop of goroutine i fails *)
| Inbound (srv : ptr) (d : Z)         (* a request that takes d arrives *)
| Tick (d : Z).                       (* time passes *)

Definition step (l : Label) (w : World) : option World :=
  if crashed w then None else
  match l with
  | CallGather acc =>
      match caller w with
      | Idle _ =>
          let '(w', r) := Gather acc w in
          Some (with_caller (Idle (Some (Returned r))) w')
      | InStop _ => None
      end
  | CallStart acc =>
      match caller w with
      | Idle _ =>
          let '(w', r) := Start acc w in
          Some (with_caller (Idle (Some (Returned r))) w')
      | InStop _ => None
      end
  | CallStop =>
      match caller w with
      | Idle _ => Some (Stop_enter w)
      | InStop _ => None
      end
  | RunStop =>
      match caller w with
      | Idle _ => None
      | InStop f => step_Stop f w
      end
  | Run i => step_goroutine i w
  | Test i =>
      g ← goroutines w !! i;
      match g_pc g with
      | pc_Server router =>
          Some (set_goroutine i
                  (match server (zip w) with
                   | None => pc_Assign router
                   | Some _ => pc_ListenAndServe
                   end) w)
      | _ => None
      end
  | AcceptError i e =>
      g ← goroutines w !! i;
      match g_pc g with
      | pc_Serving p =>
          srv ← servers w !! p;
          let '(srv', bound') := http.close_listener srv (bound w) in
          Some (set_goroutine i (pc_Err (Some e))
                  (with_bound bound'
                     (with_servers (<[p := srv']> (servers w)) w)))
      | _ => None
      end
  | Inbound p d =>
      srv ← servers w !! p;
      if http.listening srv && (0 <? d)%Z then
        let srv' := {| http.Addr := http.Addr srv;
                       http.Handler := http.Handler srv;
                       http.inShutdown := http.inShutdown srv;
                       http.listening := http.listening srv;
                       http.busy_until :=
                         Z.max (http.busy_until srv) (clock w + d) |} in
        Some (with_servers (<[p := srv']> (servers w)) w)
      else None
  | Tick d =>
      if (0 <? d)%Z then Some (with_clock (clock w + d) w) else None
  end.

(** A schedule is run label by label; it fails where a label is not
    enabled. *)
Fixpoint run (ls : list Label) (w : World) : option World :=
  match ls with
  | [] => Some w
  | l :: ls => w' ← step l w; run ls w'
  end.

(** The world at process start: a plugin value, nothing launched yet. *)
Definition boot (z : Zipkin) (taken : list string) (now : Z) : World :=
  {| zip := z; wgs := []; servers := []; goroutines := []; acc_calls := [];
     logs := []; bound := taken; clock := now; caller := Idle None;
     crashed := false |}.

(** The value the registered factory makes. *)
Definition fresh : Zipkin :=
  {| ServiceAddress := EmptyString; Port := DefaultPort; Path := DefaultRoute;
     handler := None; server := None; waitGroup := None |}.

(** The address of the server [ListenAndServe] will be called on, once
    [Listen] has gone through lines 149-154. *)
Definition listen_addr (router : mux.Router) (w : World) : option string :=
  let w' := Listen_server router w in
  p ← server (zip w');
  srv ← servers w' !! p;
  Some (http.Addr srv).

Definition set_ServiceAddress (a : string) (z : Zipkin) : Zipkin :=
  {| ServiceAddress := a; Port := Port z; Path := Path z;
     handler := handler z; server := server z; waitGroup := waitGroup z |}.

(** A handler whose registration fails, as on a route conflict. *)
Definition conflicting_handler : Handler :=
  {| Register := λ router _, (router, Some "route conflict") |}.

(** The calls on accumulators that goroutine [i] made. *)
Definition made_by (c : AccCall) : nat :=
  match c with AddError g _ _ => g end.

Definition reported_by (i : nat) (calls : list AccCall) : list AccCall :=
  filter (λ c, made_by c = i) calls.

(** What goroutine [i] has reported, by where it stands: nothing until
    [ListenAndServe] has returned its error, that one error from then on. *)
Definition report_ok (i : nat) (og : option Goroutine) (l : list AccCall)
  : Prop :=
  match og with
  | None => l = []
  | Some g =>
      match g_pc g with
      | pc_Err None => False
      | pc_Done false | pc_Exit =>
          ∃ e, l = [AddError i (g_acc g) ("E! Error listening: " +:+ e)]
      | pc_Crash => length l ≤ 1
      | _ => l = []
      end
  end.

Definition reports_ok (w : World) : Prop :=
  ∀ i, report_ok i (goroutines w !! i) (reported_by i (acc_calls w)).

(** The places where a goroutine has reported nothing yet. *)
Definition silent (pc : PC) : Prop :=
  match pc with
  | pc_Add | pc_Register | pc_Server _ | pc_Assign _ | pc_ListenAndServe
  | pc_Serving _ | pc_Err (Some _) | pc_Done true => True
  | _ => False
  end.

(** The moves of a goroutine that make no call on an accumulator. *)
Definition quiet (pc pc' : PC) : Prop :=
  match pc' with
  | pc_Err None | pc_Done false => False
  | pc_Exit => pc = pc_Done false
  | pc_Crash => pc ≠ pc_Err None
  | _ => silent pc
  end.

(** A world in which the plugin serves on :9411 and a request that takes
    50 has just arrived. *)
Definition serving_world : World :=
  default (boot fresh [] 100)
    (run [CallStart 0; Run 0; Run 0; Run 0; Run 0; Inbound 0 50]
       (boot fresh [] 100)).

(** Two worlds in which :9411 is taken by another process: the goroutine is
    about to call [ListenAndServe], and [ListenAndServe] has just returned. *)
Definition binding_world : World :=
  default (boot fresh [":9411"] 0)
    (run [CallStart 7; Run 0; Run 0; Run 0] (boot fresh [":9411"] 0)).

Definition reporting_world : World :=
  default (boot fresh [":9411"] 0)
    (run [CallStart 7; Run 0; Run 0; Run 0; Run 0] (boot fresh [":9411"] 0)).

(** ** The steps as a relation

    One rule for each way a label is enabled; [step_Step] below shows that
    the rules are exactly what [step] computes. *)
Inductive Step : Label → World → World → Prop :=
| Step_Gather acc w last :
    crashed w = false → caller w = Idle last →
    Step (CallGather acc) w (with_caller (Idle (Some (Returned None))) w)
| Step_Start acc w last :
    crashed w = false → caller w = Idle last →
    Step (CallStart acc) w
      (with_caller (Idle (Some (Returned None))) (Start acc w).1)
| Step_Stop w last :
    crashed w = false → caller w = Idle last →
    Step CallStop w (Stop_enter w)
| Step_Shutdown_nil w f :
    crashed w = false → caller w = InStop f → s_pc f = sp_Shutdown →
    server (zip w) = None →
    Step RunStop w (with_caller (at_pc sp_Wait true f) w)
| Step_Shutdown w f p srv srv' bound' t err :
    crashed w = false → caller w = InStop f → s_pc f = sp_Shutdown →
    server (zip w) = Some p → servers w !! p = Some srv →
    http.Shutdown (s_ctx f) (clock w) srv (bound w) = (srv', bound', t, err) →
    Step RunStop w
      (with_caller (at_pc sp_Wait (s_panicking f) f)
         (with_clock t
            (with_bound bound' (with_servers (<[p := srv']> (servers w)) w))))
| Step_Wait_nil w f :
    crashed w = false → caller w = InStop f → s_pc f = sp_Wait →
    s_wg f = None →
    Step RunStop w (with_caller (at_pc sp_Cancel true f) w)
| Step_Wait w f p n :
    crashed w = false → caller w = InStop f → s_pc f = sp_Wait →
    s_wg f = Some p → wgs w !! p = Some n → sync.Wait_ready n = true →
    Step RunStop w (with_caller (at_pc sp_Cancel (s_panicking f) f) w)
| Step_Cancel w f :
    crashed w = false → caller w = InStop f → s_pc f = sp_Cancel →
    Step RunStop w
      (with_caller
         (Idle (Some (if s_panicking f then Panicked else Returned None))) w)
| Step_Add w i g n n' :
    crashed w = false → goroutines w !! i = Some g → g_pc g = pc_Add →
    wgs w !! g_wg g = Some n → sync.Add 1 n = Some n' →
    Step (Run i) w
      (set_goroutine i pc_Register (with_wgs (<[g_wg g := n']> (wgs w)) w))
| Step_Add_panic w i g n :
    crashed w = false → goroutines w !! i = Some g → g_pc g = pc_Add →
    wgs w !! g_wg g = Some n → sync.Add 1 n = None →
    Step (Run i) w (crash i w)
| Step_Register w i g router :
    crashed w = false → goroutines w !! i = Some g → g_pc g = pc_Register →
    Listen_Register (g_acc g) (zip w) = Some router →
    Step (Run i) w (set_goroutine i (pc_Server router) w)
| Step_Register_nil w i g :
    crashed w = false → goroutines w !! i = Some g → g_pc g = pc_Register →
    Listen_Register (g_acc g) (zip w) = None →
    Step (Run i) w (set_goroutine i (pc_Done true) w)
| Step_Server w i g router :
    crashed w = false → goroutines w !! i = Some g →
    g_pc g = pc_Server router →
    Step (Run i) w (set_goroutine i pc_ListenAndServe (Listen_server router w))
| Step_Listen_nil w i g :
    crashed w = false → goroutines w !! i = Some g →
    g_pc g = pc_ListenAndServe → server (zip w) = None →
    Step (Run i) w (set_goroutine i (pc_Done true) w)
| Step_Listen w i g p srv srv' bound' err :
    crashed w = false → goroutines w !! i = Some g →
    g_pc g = pc_ListenAndServe → server (zip w) = Some p →
    servers w !! p = Some srv →
    http.bind srv (bound w) = (srv', bound', err) →
    Step (Run i) w
      (set_goroutine i
         (match err with None => pc_Serving p | Some _ => pc_Err err end)
         (with_bound bound' (with_servers (<[p := srv']> (servers w)) w)))
| Step_Closed w i g p srv :
    crashed w = false → goroutines w !! i = Some g → g_pc g = pc_Serving p →
    servers w !! p = Some srv → http.inShutdown srv = true →
    Step (Run i) w (set_goroutine i (pc_Err (Some http.ErrServerClosed)) w)
| Step_Report w i g err :
    crashed w = false → goroutines w !! i = Some g → g_pc g = pc_Err err →
    Step (Run i) w
      (set_goroutine i (pc_Done false) (Listen_report i (g_acc g) err w))
| Step_Done w i g panicking n n' :
    crashed w = false → goroutines w !! i = Some g →
    g_pc g = pc_Done panicking →
    wgs w !! g_wg g = Some n → sync.Done n = Some n' →
    Step (Run i) w
      (if panicking
       then crash i (with_wgs (<[g_wg g := n']> (wgs w)) w)
       else set_goroutine i pc_Exit (with_wgs (<[g_wg g := n']> (wgs w)) w))
| Step_Done_panic w i g panicking n :
    crashed w = false → goroutines w !! i = Some g →
    g_pc g = pc_Done panicking →
    wgs w !! g_wg g = Some n → sync.Done n = None →
    Step (Run i) w (crash i w)
| Step_AcceptError w i e g p srv srv' bound' :
    crashed w = false → goroutines w !! i = Some g → g_pc g = pc_Serving p →
    servers w !! p = Some srv →
    http.close_listener srv (bound w) = (srv', bound') →
    Step (AcceptError i e) w
      (set_goroutine i (pc_Err (Some e))
         (with_bound bound' (with_servers (<[p := srv']> (servers w)) w)))
| Step_Inbound w p d srv :
    crashed w = false → servers w !! p = Some srv →
    http.listening srv = true → (0 < d)%Z →
    Step (Inbound p d) w
      (with_servers
         (<[p := {| http.Addr := http.Addr srv;
                    http.Handler := http.Handler srv;
                    http.inShutdown := http.inShutdown srv;
                    http.listening := http.listening srv;
                    http.busy_until :=
                      Z.max (http.busy_until srv) (clock w + d) |}]>
            (servers w)) w)
| Step_Tick w d :
    crashed w = false → (0 < d)%Z →
    Step (Tick d) w (with_clock (clock w + d) w)
| Step_Test w i g router :
    crashed w = false → goroutines w !! i = Some g →
    g_pc g = pc_Server router →
    Step (Test i) w
      (set_goroutine i
         (match server (zip w) with
          | None => pc_Assign router
          | Some _ => pc_ListenAndServe
          end) w)
| Step_Assign w i g router :
    crashed w = false → goroutines w !! i = Some g →
    g_pc g = pc_Assign router →
    Step (Run i) w (set_goroutine i pc_ListenAndServe (Listen_assign router w)).

(** ** What holds of every world the plugin reaches *)

(** The goroutine stands between its [Add] and its [Done]. *)
Definition active (pc : PC) : bool :=
  match pc with
  | pc_Add | pc_Exit | pc_Crash => false
  | _ => true
  end.

(** The goroutine is unwinding from a panic, or died of one. *)
Definition panicked (pc : PC) : bool :=
  match pc with
  | pc_Done true | pc_Crash => true
  | _ => false
  end.

Definition counter_of (pc : PC) : sync.WaitGroup :=
  if active pc then 1%Z else 0%Z.

(** Wait groups and goroutines are created together by [Start], so the
    [i]-th goroutine holds the [i]-th wait group, whose counter tells whether
    the goroutine is active; [z.waitGroup] is the last one created, and a
    running [Stop] holds that same one; no goroutine has panicked. *)
Record sound (w : World) : Prop := {
  sound_alive : crashed w = false;
  sound_length : length (wgs w) = length (goroutines w);
  sound_goroutine : ∀ i g,
    goroutines w !! i = Some g →
    g_wg g = i
    ∧ wgs w !! i = Some (counter_of (g_pc g))
    ∧ panicked (g_pc g) = false
    ∧ (g_pc g = pc_ListenAndServe → is_Some (server (zip w)));
  sound_started :
    goroutines w ≠ [] →
    is_Some (handler (zip w))
    ∧ waitGroup (zip w) = Some (length (goroutines w) - 1);
  sound_stop : ∀ f, caller w = InStop f → s_wg f = waitGroup (zip w);
}.

(** The accumulators handed to [Start] along a schedule, in order. *)
Definition starts (ls : list Label) : list Accumulator :=
  omap (λ l, match l with CallStart acc => Some acc | _ => None end) ls.

(** The world in which [Stop] has shut the serving plugin down and stands
    at its deferred [Wait]. *)
Definition waiting_world : World :=
  default serving_world (run [CallStop; RunStop] serving_world).

(** The configuration is the same, the handler that was set is still the
    handler, and a server is still set if one was. *)
Definition same_config (z z' : Zipkin) : Prop :=
  ServiceAddress z' = ServiceAddress z
  ∧ Port z' = Port z
  ∧ Path z' = Path z
  ∧ (∀ h, handler z = Some h → handler z' = Some h)
  ∧ (is_Some (server z) → is_Some (server z')).

(** [z.server] is [p], and that server was shut down. *)
Definition shut_down (p : ptr) (w : World) : Prop :=
  server (zip w) = Some p
  ∧ ∃ srv, servers w !! p = Some srv ∧ http.inShutdown srv = true.

(** The world after one full round of [Start] and [Stop], and the world in
    which a second [Start] has brought its goroutine to [ListenAndServe]. *)
Definition stopped_world : World :=
  default (boot fresh [] 0)
    (run [CallStart 0; Run 0; Run 0; Run 0; Run 0;
          CallStop; RunStop; Run 0; Run 0; Run 0; RunStop; RunStop]
       (boot fresh [] 0)).

Definition restarted_world : World :=
  default stopped_world
    (run [CallStart 0; Run 1; Run 1; Run 1] stopped_world).

(** The goroutine has found [z.server] nil and not yet assigned it. *)
Definition assigning (pc : PC) : bool :=
  match pc with pc_Assign _ => true | _ => false end.

Definition no_assign (w : World) : Prop :=
  ∀ i g, goroutines w !! i = Some g → assigning (g_pc g) = false.

(** The world after two calls of [Start], with accumulators 7 and 3, whose
    goroutines have run as far as they can: the first serves, the second
    has found the address taken and stands at its report. *)
Definition twice_started_world : World :=
  default (boot fresh [] 0)
    (run [CallStart 7; Run 0; Run 0; Run 0; Run 0;
          CallStart 3; Run 1; Run 1; Run 1; Run 1; Run 1] (boot fresh [] 0)).

(** * Properties *)

(** ** Projections through the updates *)

Lemma lookup_set_goroutine i pc w g :
  goroutines w !! i = Some g →
  goroutines (set_goroutine i pc w) !! i = Some (set_pc pc g).
Proof.
  intros Hg. unfold set_goroutine. simpl.
  rewrite list_lookup_alter_eq, Hg. reflexivity.
Qed.

Lemma lookup_set_goroutine_ne i j pc w :
  i ≠ j →
  goroutines (set_goroutine i pc w) !! j = goroutines w !! j.
Proof.
  intros Hne. unfold set_goroutine. simpl.
  apply list_lookup_alter_ne. exact Hne.
Qed.


(** ** Gather *)

(** C10: [Gather] is a no-op.  For every world and accumulator it returns
    nil and hands back the world it was given: the plugin value, the calls
    made on accumulators and everything else are as before. *)
Theorem Gather_no_op (acc : Accumulator) (w : World) :
  snd (Gather acc w) = None
  ∧ fst (Gather acc w) = w
  ∧ zip (fst (Gather acc w)) = zip w
  ∧ acc_calls (fst (Gather acc w)) = acc_calls w.
Proof. unfold Gather. simpl. repeat split. Qed.

(** ** The factory *)

(** C9: whatever the table held, [init] leaves under the name zipkin a
    factory whose value has port 9411 and route path /api/v1/spans (and
    nothing else set). *)
Theorem init_factory_defaults (Inputs : gmap string inputs.Creator) :
  ∃ creator,
    init Inputs !! "zipkin" = Some creator
    ∧ Port (creator ()) = 9411%Z
    ∧ Path (creator ()) = "/api/v1/spans"
    ∧ creator () = fresh.
Proof.
  eexists. split.
  - unfold init, inputs.Add. apply lookup_insert_eq.
  - repeat split.
Qed.

(** ** Start *)

(** C7: after [Start] the handler is the one that was configured, or, when
    none was, the default handler for the configured path; the goroutine
    [Start] launches is created in that same world, at its first statement,
    so it only ever sees the handler in place.  [Start] changes neither the
    path nor the port nor the address. *)
Theorem Start_handler (acc : Accumulator) (w : World) :
  let w' := fst (Start acc w) in
  handler (zip w')
  = Some (match handler (zip w) with
          | None => NewSpanHandler (Path (zip w))
          | Some h => h
          end)
  ∧ goroutines w'
    = goroutines w ++ [{| g_wg := length (wgs w); g_acc := acc;
                          g_pc := pc_Add |}]
  ∧ Path (zip w') = Path (zip w)
  ∧ Port (zip w') = Port (zip w)
  ∧ ServiceAddress (zip w') = ServiceAddress (zip w).
Proof.
  unfold Start. simpl.
  destruct (handler (zip w)) as [h|] eqn:Hh; simpl; rewrite ?Hh;
    repeat split.
Qed.

(** ** Listen: the server *)



(** C3, as the code has it: the server [Listen] constructs is bound to a
    colon followed by the decimal port.  The service address does not enter
    the listen address: whatever it is set to, the address is the same. *)
Theorem listen_addr_port_only (router : mux.Router) (w : World) :
  server (zip w) = None →
  listen_addr router w = Some (":" +:+ strconv.Itoa (Port (zip w)))
  ∧ ∀ a, listen_addr router (with_zip (set_ServiceAddress a (zip w)) w)
         = listen_addr router w.
Proof.
  intros Hnone.
  assert (Haddr : ∀ w0, server (zip w0) = None →
            listen_addr router w0 = Some (":" +:+ strconv.Itoa (Port (zip w0)))).
  { intros w0 H0. unfold listen_addr, Listen_server. rewrite H0. simpl.
    rewrite list_lookup_middle by reflexivity. reflexivity. }
  split; [ apply Haddr, Hnone | ].
  intros a. rewrite !Haddr; [ reflexivity | exact Hnone | exact Hnone ].
Qed.

Lemma listen_addr_port_only_witness :
  listen_addr [] (boot fresh [] 0) = Some ":9411".
Proof.
  destruct (listen_addr_port_only [] (boot fresh [] 0)) as [H _];
    [ reflexivity | exact H ].
Defined.

(** C3, as the spec has it, fails: with the service address 127.0.0.1 and the
    port 9411 the server listens on :9411, not on 127.0.0.1:9411, and another
    service address gives the very same listen address. *)
Lemma listen_addr_ignores_ServiceAddress :
  let w := boot (set_ServiceAddress "127.0.0.1" fresh) [] 0 in
  ServiceAddress (zip w) = "127.0.0.1"
  ∧ listen_addr [] w = Some ":9411"
  ∧ listen_addr [] w ≠ Some "127.0.0.1:9411"
  ∧ listen_addr [] (with_zip (set_ServiceAddress "10.0.0.1" (zip w)) w)
    = listen_addr [] w.
Proof. vm_compute. repeat split. discriminate. Qed.

(** ** Listen: the registration *)

(** C2, on the code: a handler whose [Register] returns an error.  [Start]
    returns nil, the goroutine goes on past the registration, builds the
    server, binds and serves; the error reaches no accumulator. *)
Theorem Register_error_dropped :
  ∃ w,
    run [CallStart 0; Run 0; Run 0; Run 0; Run 0]
      (boot (set_handler (Some conflicting_handler) fresh) [] 0) = Some w
    ∧ caller w = Idle (Some (Returned None))
    ∧ g_pc <$> goroutines w !! 0 = Some (pc_Serving 0)
    ∧ http.listening <$> servers w !! 0 = Some true
    ∧ bound w = [":9411"]
    ∧ acc_calls w = [].
Proof. eexists. split; [ vm_compute; reflexivity | vm_compute; repeat split ]. Qed.

(** ** Stop *)

(** C1, on the code: [Stop] on a value that was never started.  [Shutdown]
    on the nil server panics, the deferred [Wait] on the nil wait group
    panics in its turn, and the panic leaves [Stop]: the call does not
    block, and it does not return. *)
Theorem Stop_before_Start_panics (w : World) (last : option Outcome) :
  crashed w = false →
  caller w = Idle last →
  server (zip w) = None →
  waitGroup (zip w) = None →
  run [CallStop; RunStop; RunStop; RunStop] w
  = Some (with_caller (Idle (Some Panicked)) w).
Proof.
  intros Hc Hcaller Hs Hwg.
  destruct w as [z ? ? ? ? ? ? ? c b]. destruct z as [? ? ? ? s g].
  simpl in *. subst. reflexivity.
Qed.

Lemma Stop_before_Start_panics_witness :
  run [CallStop; RunStop; RunStop; RunStop] (boot fresh [] 0)
  = Some (with_caller (Idle (Some Panicked)) (boot fresh [] 0)).
Proof.
  apply (Stop_before_Start_panics (boot fresh [] 0) None); reflexivity.
Defined.

(** C5, on the code.  First schedule: [Stop] right after [Start], before the
    goroutine has run.  The server is still nil, so [Shutdown] panics; the
    wait group is still at zero, so the deferred [Wait] does not wait; [Stop]
    is left by the panic while the goroutine stands at its first statement.
    Second schedule: a full start and stop, then [Start] and [Stop] again.
    The server of the first round exists, [Shutdown] returns, [Wait] finds
    the new counter at zero, and [Stop] returns normally while the new
    goroutine has not run; it runs afterwards and reports to the
    accumulator after [Stop] is over. *)
Theorem Stop_does_not_join :
  (∃ w,
     run [CallStart 0; CallStop; RunStop; RunStop; RunStop]
       (boot fresh [] 0) = Some w
     ∧ caller w = Idle (Some Panicked)
     ∧ g_pc <$> goroutines w !! 0 = Some pc_Add)
  ∧ (∃ w w',
       run [CallStart 0; Run 0; Run 0; Run 0; Run 0;
            CallStop; RunStop; Run 0; Run 0; Run 0; RunStop; RunStop;
            CallStart 0; CallStop; RunStop; RunStop; RunStop]
         (boot fresh [] 0) = Some w
       ∧ caller w = Idle (Some (Returned None))
       ∧ g_pc <$> goroutines w = [pc_Exit; pc_Add]
       ∧ run [Run 1; Run 1; Run 1; Run 1; Run 1; Run 1] w = Some w'
       ∧ g_pc <$> goroutines w' = [pc_Exit; pc_Exit]
       ∧ length (acc_calls w') = S (length (acc_calls w))).
Proof.
  split.
  - eexists. split; [ vm_compute; reflexivity | vm_compute; repeat split ].
  - eexists. eexists. split; [ vm_compute; reflexivity | ].
    split; [ reflexivity | ]. split; [ reflexivity | ].
    split; [ vm_compute; reflexivity | ].
    split; reflexivity.
Qed.

Lemma Shutdown_returns (ctx : context.Context) (now : Z) (srv : http.Server)
    (bound : list string) :
  ∃ srv' bound' t err,
    http.Shutdown ctx now srv bound = (srv', bound', t, err)
    ∧ http.inShutdown srv' = true
    ∧ http.listening srv' = false
    ∧ http.Addr srv' = http.Addr srv
    ∧ (now ≤ t)%Z
    ∧ ∀ d, context.deadline ctx = Some d → (t ≤ Z.max now d)%Z.
Proof.
  unfold http.Shutdown, http.close_listener.
  destruct (http.listening srv) eqn:Hl; simpl;
    destruct (Z.leb_spec (http.busy_until srv) now);
    try (destruct (context.deadline ctx) as [d|] eqn:Hd;
         [ destruct (Z.leb_spec (http.busy_until srv) d) | ]);
    do 4 eexists; (split; [ reflexivity | ]); simpl; rewrite ?Hl;
    (split; [ reflexivity | ]); (split; [ reflexivity | ]);
    (split; [ reflexivity | ]); (split; [ lia | ]);
    intros d' Hd'; try discriminate; try lia;
    injection Hd' as <-; lia.
Qed.

(** When [Shutdown] returns, and with what. *)
Lemma Shutdown_by_the_deadline (now d : Z) (srv : http.Server)
    (bound : list string) :
  ∃ srv' bound' t err,
    http.Shutdown {| context.deadline := Some d |} now srv bound
    = (srv', bound', t, err)
    ∧ http.inShutdown srv' = true
    ∧ http.listening srv' = false
    ∧ http.Addr srv' = http.Addr srv
    ∧ http.Handler srv' = http.Handler srv
    ∧ ((http.busy_until srv ≤ Z.max now d)%Z →
       err = None ∧ t = Z.max now (http.busy_until srv))
    ∧ ((Z.max now d < http.busy_until srv)%Z →
       err = Some context.DeadlineExceeded ∧ t = Z.max now d).
Proof.
  unfold http.Shutdown, http.close_listener. simpl.
  destruct (http.listening srv) eqn:Hl; simpl;
    destruct (Z.leb_spec (http.busy_until srv) now);
    try destruct (Z.leb_spec (http.busy_until srv) d);
    do 4 eexists; (split; [ reflexivity | ]); simpl; rewrite ?Hl;
    repeat split; try reflexivity; try lia.
Qed.


(** C6: every call of [Stop] made when the clock reads [clock w] builds a
    context whose deadline is [clock w] plus the default shutdown timeout,
    which is 5, and goes on to call [Shutdown] with it on [z.server].
    Where the server exists, the step is that call and nothing else: the
    server is marked as shut down and its listener closed, the call returns
    nil as soon as the requests in flight are answered when that is by the
    deadline, and the context's error at the deadline when they are not (at
    once when the deadline is already past), and either way [Stop] moves on
    to its deferred [Wait] without looking at what was returned.  Where
    the server is nil (no [Start] before, or a goroutine that has not built
    it yet) the call panics: no server is shut down, nothing returns, and
    [Stop] unwinds through its deferred calls.  So the claim holds of the
    calls made on a server and fails on the others. *)
Theorem Stop_shutdown_deadline (w : World) (last : option Outcome) :
  crashed w = false →
  caller w = Idle last →
  ∃ f,
    step CallStop w = Some (with_caller (InStop f) w)
    ∧ s_pc f = sp_Shutdown
    ∧ s_panicking f = false
    ∧ s_ctx f
      = context.WithTimeout context.Background (clock w) DefaultShutdownTimeout
    ∧ context.deadline (s_ctx f) = Some (clock w + 5)%Z
    ∧ (∀ w1 p srv,
         crashed w1 = false →
         caller w1 = InStop f →
         server (zip w1) = Some p →
         servers w1 !! p = Some srv →
         ∃ srv' bound' t err,
           http.Shutdown (s_ctx f) (clock w1) srv (bound w1)
           = (srv', bound', t, err)
           ∧ step RunStop w1
             = Some (with_caller (at_pc sp_Wait false f)
                       (with_clock t
                          (with_bound bound'
                             (with_servers (<[p := srv']> (servers w1)) w1))))
           ∧ http.inShutdown srv' = true
           ∧ http.listening srv' = false
           ∧ ((http.busy_until srv ≤ Z.max (clock w1) (clock w + 5))%Z →
              err = None ∧ t = Z.max (clock w1) (http.busy_until srv))
           ∧ ((Z.max (clock w1) (clock w + 5) < http.busy_until srv)%Z →
              err = Some context.DeadlineExceeded
              ∧ t = Z.max (clock w1) (clock w + 5)%Z))
    ∧ (∀ w1,
         crashed w1 = false →
         caller w1 = InStop f →
         server (zip w1) = None →
         step RunStop w1 = Some (with_caller (at_pc sp_Wait true f) w1)).
Proof.
  intros Hc Hcaller.
  exists {| s_ctx := context.WithTimeout context.Background (clock w)
                       DefaultShutdownTimeout;
            s_wg := waitGroup (zip w); s_pc := sp_Shutdown;
            s_panicking := false |}.
  split; [ unfold step; rewrite Hc, Hcaller; reflexivity | ].
  do 4 (split; [ reflexivity | ]).
  split.
  - intros w1 p srv Hc1 Hcaller1 Hp Hsrv.
    destruct (Shutdown_by_the_deadline (clock w1) (clock w + 5) srv (bound w1))
      as (srv' & bound' & t & err & Heq & Hin & Hl & _ & _ & Hok & Hlate).
    exists srv', bound', t, err.
    split; [ exact Heq | ].
    split.
    { unfold step. rewrite Hc1, Hcaller1. unfold step_Stop. simpl.
      rewrite Hp, Hsrv. simpl.
      unfold context.WithTimeout, DefaultShutdownTimeout. simpl.
      rewrite Heq. reflexivity. }
    repeat split; try assumption; first [ apply Hok | apply Hlate ];
      assumption.
  - intros w1 Hc1 Hcaller1 Hp.
    unfold step. rewrite Hc1, Hcaller1. unfold step_Stop. simpl.
    rewrite Hp. reflexivity.
Qed.

Lemma Stop_shutdown_deadline_witness :
  ∃ f w2,
    step CallStop serving_world = Some (with_caller (InStop f) serving_world)
    ∧ context.deadline (s_ctx f) = Some 105%Z
    ∧ step RunStop (with_caller (InStop f) serving_world) = Some w2
    ∧ clock w2 = 105%Z
    ∧ (∃ srv', servers w2 !! 0 = Some srv' ∧ http.inShutdown srv' = true)
    ∧ step RunStop (with_caller (InStop f) (boot fresh [] 100))
      = Some (with_caller (at_pc sp_Wait true f) (boot fresh [] 100)).
Proof.
  destruct (Stop_shutdown_deadline serving_world (Some (Returned None)))
    as (f & Hstep & _ & _ & _ & Hd & Hrun & Hnil);
    [ reflexivity | reflexivity | ].
  destruct (Hrun (with_caller (InStop f) serving_world) 0
              {| http.Addr := ":9411"; http.Handler := ["/api/v1/spans"];
                 http.inShutdown := false; http.listening := true;
                 http.busy_until := 150 |})
    as (srv' & bound' & t & err & _ & Hstep2 & Hin & _ & _ & Hlate);
    [ reflexivity | reflexivity | reflexivity | reflexivity | ].
  destruct Hlate as [_ Ht]; [ vm_compute; reflexivity | ].
  eexists f, _.
  split; [ exact Hstep | ]. split; [ exact Hd | ].
  split; [ exact Hstep2 | ].
  split; [ simpl; rewrite Ht; reflexivity | ].
  split; [ exists srv'; split; [ reflexivity | exact Hin ] | ].
  apply (Hnil (with_caller (InStop f) (boot fresh [] 100))); reflexivity.
Defined.


(** ** The reports of a goroutine *)

Section Reports.

Implicit Types (w : World) (g : Goroutine) (i : nat).

Lemma reported_by_snoc i (calls : list AccCall) c :
  reported_by i (calls ++ [c])
  = if decide (made_by c = i) then reported_by i calls ++ [c]
    else reported_by i calls.
Proof.
  unfold reported_by. rewrite filter_app, filter_cons, filter_nil.
  destruct (decide (made_by c = i)); [ reflexivity | apply app_nil_r ].
Qed.

Lemma report_ok_at_most_one i g (l : list AccCall) :
  report_ok i (Some g) l → g_pc g ≠ pc_Err None ∧ length l ≤ 1.
Proof.
  unfold report_ok.
  destruct (g_pc g) as [ | | | | | |[e|]|[|]| | ]; intros H; split;
    try discriminate; try (subst l; simpl; lia);
    try (destruct H as [e' ->]; simpl; lia);
    try assumption; try contradiction.
Qed.

Lemma report_ok_silent i g (l : list AccCall) :
  silent (g_pc g) → report_ok i (Some g) l → l = [].
Proof.
  unfold report_ok, silent.
  destruct (g_pc g) as [ | | | | | |[e|]|[|]| | ]; intros Hs H;
    try contradiction; assumption.
Qed.

(** Nothing launched, nothing reported: the invariant holds. *)
Lemma reports_ok_init w :
  goroutines w = [] → acc_calls w = [] → reports_ok w.
Proof. intros Hg Ha i. rewrite Hg, Ha. reflexivity. Qed.

Lemma reports_ok_same w w' :
  goroutines w' = goroutines w → acc_calls w' = acc_calls w →
  reports_ok w → reports_ok w'.
Proof. intros Hg Ha H i. rewrite Hg, Ha. apply H. Qed.

(** [Start] adds a goroutine that has reported nothing. *)
Lemma reports_ok_spawn w w' g :
  goroutines w' = goroutines w ++ [g] → g_pc g = pc_Add →
  acc_calls w' = acc_calls w →
  reports_ok w → reports_ok w'.
Proof.
  intros Hg Hpc Ha H i. rewrite Hg, Ha. specialize (H i).
  destruct (decide (i < length (goroutines w))) as [Hlt|Hge].
  - rewrite lookup_app_l by exact Hlt. exact H.
  - rewrite lookup_ge_None_2 in H by lia. simpl in H.
    destruct (decide (i = length (goroutines w))) as [->|Hne].
    + rewrite list_lookup_middle by reflexivity. simpl. rewrite Hpc. exact H.
    + rewrite lookup_ge_None_2; [ exact H | ].
      rewrite length_app. simpl. lia.
Qed.

(** A move that calls no accumulator. *)
Lemma reports_ok_move w w' i g pc' :
  goroutines w !! i = Some g →
  goroutines w' = alter (set_pc pc') i (goroutines w) →
  acc_calls w' = acc_calls w →
  quiet (g_pc g) pc' →
  reports_ok w → reports_ok w'.
Proof.
  intros Hgi Hg Ha Hq H j. rewrite Hg, Ha. specialize (H j).
  destruct (decide (i = j)) as [<-|Hne].
  - rewrite list_lookup_alter_eq, Hgi. rewrite Hgi in H. simpl.
    pose proof (report_ok_at_most_one _ _ _ H) as [Hno Hlen].
    unfold quiet in Hq.
    destruct pc' as [ | | | | | |[e|]|[|]| | ]; simpl; try contradiction;
      try (apply (report_ok_silent i g); assumption).
    + unfold report_ok in H. rewrite Hq in H. exact H.
    + exact Hlen.
  - rewrite list_lookup_alter_ne by exact Hne. exact H.
Qed.

(** The move at lines 155-157: one call of [AddError], by this goroutine,
    on its accumulator. *)
Lemma reports_ok_report w w' i g e :
  goroutines w !! i = Some g →
  g_pc g = pc_Err (Some e) →
  goroutines w' = alter (set_pc (pc_Done false)) i (goroutines w) →
  acc_calls w' = acc_calls w
                 ++ [AddError i (g_acc g) ("E! Error listening: " +:+ e)] →
  reports_ok w → reports_ok w'.
Proof.
  intros Hgi Hpc Hg Ha H j. rewrite Hg, Ha, reported_by_snoc. simpl.
  specialize (H j). destruct (decide (i = j)) as [<-|Hne].
  - rewrite list_lookup_alter_eq, Hgi. rewrite Hgi in H. simpl.
    unfold report_ok in H. rewrite Hpc in H. rewrite H. exists e.
    reflexivity.
  - rewrite list_lookup_alter_ne by exact Hne. exact H.
Qed.

End Reports.

Ltac quiet_move Hg Hpc Hinv :=
  eapply reports_ok_move;
  [ exact Hg | reflexivity | reflexivity
  | rewrite Hpc; simpl; first [ exact I | discriminate | reflexivity ]
  | exact Hinv ].

Lemma step_goroutine_reports_ok (i : nat) (w w' : World) :
  step_goroutine i w = Some w' → reports_ok w → reports_ok w'.
Proof.
  unfold step_goroutine. intros Hstep Hinv.
  destruct (goroutines w !! i) as [g|] eqn:Hg; simpl in Hstep;
    [ | discriminate ].
  destruct (g_pc g) as [ | |router|router| |p|err|panicking| | ] eqn:Hpc.
  - destruct (wgs w !! g_wg g) as [n|]; simpl in Hstep; [ | discriminate ].
    destruct (sync.Add 1 n); injection Hstep as <-; quiet_move Hg Hpc Hinv.
  - destruct (Listen_Register (g_acc g) (zip w)); injection Hstep as <-;
      quiet_move Hg Hpc Hinv.
  - injection Hstep as <-. unfold Listen_server.
    destruct (server (zip w)); quiet_move Hg Hpc Hinv.
  - injection Hstep as <-. quiet_move Hg Hpc Hinv.
  - destruct (server (zip w)) as [p|].
    + destruct (servers w !! p) as [srv|]; simpl in Hstep; [ | discriminate ].
      destruct (http.bind srv (bound w)) as [[srv' bound'] [e|]];
        injection Hstep as <-; quiet_move Hg Hpc Hinv.
    + injection Hstep as <-. quiet_move Hg Hpc Hinv.
  - destruct (servers w !! p) as [srv|]; simpl in Hstep; [ | discriminate ].
    destruct (http.inShutdown srv); [ | discriminate ].
    injection Hstep as <-. quiet_move Hg Hpc Hinv.
  - injection Hstep as <-. destruct err as [e|].
    + eapply reports_ok_report;
        [ exact Hg | exact Hpc | reflexivity | reflexivity | exact Hinv ].
    + exfalso. specialize (Hinv i). rewrite Hg in Hinv.
      unfold report_ok in Hinv. rewrite Hpc in Hinv. exact Hinv.
  - destruct (wgs w !! g_wg g) as [n|]; simpl in Hstep; [ | discriminate ].
    destruct (sync.Done n); destruct panicking; injection Hstep as <-;
      quiet_move Hg Hpc Hinv.
  - discriminate.
  - discriminate.
Qed.

Lemma step_Stop_reports_ok (f : StopFrame) (w w' : World) :
  step_Stop f w = Some w' → reports_ok w → reports_ok w'.
Proof.
  unfold step_Stop. intros Hstep.
  apply reports_ok_same;
    destruct (s_pc f).
  1, 4: destruct (server (zip w)) as [p|];
    [ destruct (servers w !! p) as [srv|]; simpl in Hstep; [ | discriminate ];
      destruct (http.Shutdown (s_ctx f) (clock w) srv (bound w))
        as [[[srv' bound'] t] err]
    | ]; injection Hstep as <-; reflexivity.
  1, 3: destruct (s_wg f) as [p|];
    [ destruct (wgs w !! p) as [n|]; simpl in Hstep; [ | discriminate ];
      destruct (sync.Wait_ready n); [ | discriminate ]
    | ]; injection Hstep as <-; reflexivity.
  all: injection Hstep as <-; reflexivity.
Qed.

(** What [Start] returns, and what it launches. *)
Lemma Start_spawns (acc : Accumulator) (w : World) :
  ∃ w1,
    Start acc w = (w1, None)
    ∧ goroutines w1
      = goroutines w ++ [{| g_wg := length (wgs w); g_acc := acc;
                            g_pc := pc_Add |}]
    ∧ acc_calls w1 = acc_calls w.
Proof.
  eexists. split; [ reflexivity | ]. simpl.
  destruct (handler (zip w)); split; reflexivity.
Qed.

(** Every step keeps the invariant. *)
Lemma step_reports_ok (l : Label) (w w' : World) :
  step l w = Some w' → reports_ok w → reports_ok w'.
Proof.
  unfold step. destruct (crashed w); [ discriminate | ].
  destruct l as [acc|acc| | |i|i|i e|p d|d]; intros Hstep Hinv.
  - destruct (caller w); [ | discriminate ]. injection Hstep as <-.
    exact (reports_ok_same w _ eq_refl eq_refl Hinv).
  - destruct (caller w); [ | discriminate ].
    destruct (Start_spawns acc w) as (w1 & HS & Hg1 & Ha1).
    rewrite HS in Hstep. injection Hstep as <-.
    eapply reports_ok_spawn; [ exact Hg1 | reflexivity | exact Ha1 | exact Hinv ].
  - destruct (caller w); [ | discriminate ]. injection Hstep as <-.
    exact (reports_ok_same w _ eq_refl eq_refl Hinv).
  - destruct (caller w) as [|f]; [ discriminate | ].
    exact (step_Stop_reports_ok f w w' Hstep Hinv).
  - exact (step_goroutine_reports_ok i w w' Hstep Hinv).
  - destruct (goroutines w !! i) as [g|] eqn:Hg; simpl in Hstep;
      [ | discriminate ].
    destruct (g_pc g) as [ | |router| | | | | | | ] eqn:Hpc; try discriminate.
    injection Hstep as <-. destruct (server (zip w)); quiet_move Hg Hpc Hinv.
  - destruct (goroutines w !! i) as [g|] eqn:Hg; simpl in Hstep;
      [ | discriminate ].
    destruct (g_pc g) as [ | | | | |p| | | | ] eqn:Hpc; try discriminate.
    destruct (servers w !! p) as [srv|]; simpl in Hstep; [ | discriminate ].
    destruct (http.close_listener srv (bound w)) as [srv' bound'].
    injection Hstep as <-. quiet_move Hg Hpc Hinv.
  - destruct (servers w !! p) as [srv|]; simpl in Hstep; [ | discriminate ].
    destruct (http.listening srv && (0 <? d)%Z); [ | discriminate ].
    injection Hstep as <-.
    exact (reports_ok_same w _ eq_refl eq_refl Hinv).
  - destruct (0 <? d)%Z; [ | discriminate ]. injection Hstep as <-.
    exact (reports_ok_same w _ eq_refl eq_refl Hinv).
Qed.

Lemma run_reports_ok (ls : list Label) (w w' : World) :
  run ls w = Some w' → reports_ok w → reports_ok w'.
Proof.
  revert w. induction ls as [|l ls IH]; intros w Hrun Hinv; simpl in Hrun.
  - injection Hrun as <-. exact Hinv.
  - destruct (step l w) as [w1|] eqn:Hstep; simpl in Hrun; [ | discriminate ].
    apply (IH w1 Hrun). exact (step_reports_ok l w w1 Hstep Hinv).
Qed.

(** C4: [Start] is fire-and-forget.
    (1) For every world and accumulator [Start] returns nil; it makes no call
    on any accumulator, and the goroutine it launches is left at its first
    statement: [Start] has not waited for it.  The call is enabled
    whenever the caller is free, and ends with the outcome nil.
    (2) A failure to bind, and a failure of the accept loop, come back to
    [Listen] as the error of [ListenAndServe]; neither touches the caller
    or an accumulator.
    (3) With that error in hand the goroutine makes one call of [AddError],
    on the accumulator [Start] was given, and moves to its exit.
    (4) In every run from a world where nothing was launched, each goroutine
    has made no call on an accumulator before that point, and exactly that
    one call after it ([ListenAndServe] never comes back without an
    error); a goroutine that died of a panic has made at most one. *)
Theorem Start_fire_and_forget :
  (∀ acc w,
     snd (Start acc w) = None
     ∧ acc_calls (fst (Start acc w)) = acc_calls w
     ∧ goroutines (fst (Start acc w))
       = goroutines w ++ [{| g_wg := length (wgs w); g_acc := acc;
                             g_pc := pc_Add |}]
     ∧ ∀ last, crashed w = false → caller w = Idle last →
         step (CallStart acc) w
         = Some (with_caller (Idle (Some (Returned None)))
                   (fst (Start acc w))))
  ∧ (∀ i g p srv w,
       crashed w = false → goroutines w !! i = Some g →
       servers w !! p = Some srv →
       (∀ e, g_pc g = pc_ListenAndServe → server (zip w) = Some p →
             (http.bind srv (bound w)).2 = Some e →
             ∃ w', step (Run i) w = Some w'
                   ∧ g_pc <$> goroutines w' !! i = Some (pc_Err (Some e))
                   ∧ acc_calls w' = acc_calls w ∧ caller w' = caller w)
       ∧ (∀ e, g_pc g = pc_Serving p →
             ∃ w', step (AcceptError i e) w = Some w'
                   ∧ g_pc <$> goroutines w' !! i = Some (pc_Err (Some e))
                   ∧ acc_calls w' = acc_calls w ∧ caller w' = caller w))
  ∧ (∀ i g e w,
       crashed w = false → goroutines w !! i = Some g →
       g_pc g = pc_Err (Some e) →
       step (Run i) w
       = Some (set_goroutine i (pc_Done false)
                 (acc_AddError i (g_acc g) ("E! Error listening: " +:+ e) w)))
  ∧ (∀ w0 ls w i g,
       goroutines w0 = [] → acc_calls w0 = [] →
       run ls w0 = Some w →
       goroutines w !! i = Some g →
       match g_pc g with
       | pc_Err None => False
       | pc_Done false | pc_Exit =>
           ∃ e, reported_by i (acc_calls w)
                = [AddError i (g_acc g) ("E! Error listening: " +:+ e)]
       | pc_Crash => length (reported_by i (acc_calls w)) ≤ 1
       | _ => reported_by i (acc_calls w) = []
       end).
Proof.
  split; [ | split; [ | split ] ].
  - intros acc w. destruct (Start_spawns acc w) as (w1 & HS & Hg1 & Ha1).
    rewrite HS. simpl. repeat split; try assumption.
    intros last Hc Hcaller. unfold step. rewrite Hc, Hcaller, HS. reflexivity.
  - intros i g p srv w Hc Hg Hsrv. split.
    + intros e Hpc Hp Hbind. unfold step. rewrite Hc. unfold step_goroutine.
      rewrite Hg. simpl. rewrite Hpc, Hp, Hsrv. simpl.
      destruct (http.bind srv (bound w)) as [[srv' bound'] err].
      simpl in Hbind. subst err. eexists. split; [ reflexivity | ].
      rewrite (lookup_set_goroutine i _ _ g) by exact Hg.
      repeat split.
    + intros e Hpc. unfold step. rewrite Hc, Hg. simpl. rewrite Hpc, Hsrv.
      simpl. destruct (http.close_listener srv (bound w)) as [srv' bound'].
      eexists. split; [ reflexivity | ].
      rewrite (lookup_set_goroutine i _ _ g) by exact Hg.
      repeat split.
  - intros i g e w Hc Hg Hpc. unfold step. rewrite Hc. unfold step_goroutine.
    rewrite Hg. simpl. rewrite Hpc. reflexivity.
  - intros w0 ls w i g Hg0 Ha0 Hrun Hg.
    pose proof (run_reports_ok ls w0 w Hrun (reports_ok_init w0 Hg0 Ha0) i)
      as H.
    rewrite Hg in H. exact H.
Qed.

Lemma Start_fire_and_forget_witness :
  step (CallStart 7) (boot fresh [":9411"] 0)
  = Some (with_caller (Idle (Some (Returned None)))
            (fst (Start 7 (boot fresh [":9411"] 0))))
  ∧ (∃ w', step (Run 0) binding_world = Some w'
           ∧ g_pc <$> goroutines w' !! 0
             = Some (pc_Err (Some (http.ErrAddrInUse ":9411")))
           ∧ acc_calls w' = acc_calls binding_world
           ∧ caller w' = caller binding_world)
  ∧ (∃ w', step (AcceptError 0 "accept tcp: too many open files")
             serving_world = Some w'
           ∧ g_pc <$> goroutines w' !! 0
             = Some (pc_Err (Some "accept tcp: too many open files"))
           ∧ acc_calls w' = acc_calls serving_world
           ∧ caller w' = caller serving_world)
  ∧ step (Run 0) reporting_world
    = Some (set_goroutine 0 (pc_Done false)
              (acc_AddError 0 7
                 ("E! Error listening: " +:+ http.ErrAddrInUse ":9411")
                 reporting_world))
  ∧ ∃ w,
      run [CallStart 7; Run 0; Run 0; Run 0; Run 0; Run 0; Run 0]
        (boot fresh [":9411"] 0) = Some w
      ∧ ∃ e, reported_by 0 (acc_calls w)
             = [AddError 0 7 ("E! Error listening: " +:+ e)].
Proof.
  destruct Start_fire_and_forget as (Hstart & Hfail & Hreport & Hrep).
  split; [ | split; [ | split; [ | split ] ] ].
  - destruct (Hstart 7 (boot fresh [":9411"] 0)) as (_ & _ & _ & Hcall).
    apply (Hcall None); reflexivity.
  - destruct (Hfail 0 {| g_wg := 0; g_acc := 7; g_pc := pc_ListenAndServe |}
                0 {| http.Addr := ":9411"; http.Handler := ["/api/v1/spans"];
                     http.inShutdown := false; http.listening := false;
                     http.busy_until := 0 |} binding_world)
      as [Hbind _]; [ reflexivity | reflexivity | reflexivity | ].
    apply (Hbind (http.ErrAddrInUse ":9411")); reflexivity.
  - destruct (Hfail 0 {| g_wg := 0; g_acc := 0; g_pc := pc_Serving 0 |}
                0 {| http.Addr := ":9411"; http.Handler := ["/api/v1/spans"];
                     http.inShutdown := false; http.listening := true;
                     http.busy_until := 150 |} serving_world)
      as [_ Hserve]; [ reflexivity | reflexivity | reflexivity | ].
    apply (Hserve "accept tcp: too many open files"); reflexivity.
  - apply (Hreport 0 {| g_wg := 0; g_acc := 7;
                        g_pc := pc_Err (Some (http.ErrAddrInUse ":9411")) |});
      reflexivity.
  - eexists. split; [ vm_compute; reflexivity | ].
    apply (Hrep (boot fresh [":9411"] 0)
             [CallStart 7; Run 0; Run 0; Run 0; Run 0; Run 0; Run 0]
             _ 0 {| g_wg := 0; g_acc := 7; g_pc := pc_Exit |});
      [ reflexivity | reflexivity | vm_compute; reflexivity | reflexivity ].
Defined.

(** The join does work when [Stop] comes while the goroutine serves: after
    [Shutdown] the deferred [Wait] is blocked, and it passes once the
    goroutine has reported and left. *)
Example Stop_joins_a_serving_goroutine :
  ∃ w1 w2,
    run [CallStop; RunStop] serving_world = Some w1
    ∧ step RunStop w1 = None
    ∧ run [Run 0; Run 0; Run 0; RunStop; RunStop] w1 = Some w2
    ∧ caller w2 = Idle (Some (Returned None))
    ∧ g_pc <$> goroutines w2 = [pc_Exit].
Proof.
  eexists. eexists. split; [ vm_compute; reflexivity | ].
  split; [ reflexivity | ]. split; [ vm_compute; reflexivity | ].
  split; reflexivity.
Qed.

(** Whatever [Register] returns as its error, [Listen] goes on with the
    router. *)
Lemma Listen_Register_ignores_error (acc : Accumulator) (z : Zipkin)
    (h : Handler) :
  handler z = Some h →
  Listen_Register acc z
  = Some (Register h mux.NewRouter (NewLineProtocolConverter acc)).1.
Proof.
  intros Hh. unfold Listen_Register. rewrite Hh.
  destruct (Register h mux.NewRouter (NewLineProtocolConverter acc)).
  reflexivity.
Qed.

(** * More of the lifecycle *)

(** ** The step function and the step relation agree *)

Lemma step_Step (l : Label) (w w' : World) :
  step l w = Some w' → Step l w w'.
Proof.
  unfold step. destruct (crashed w) eqn:Hc; [ discriminate | ].
  destruct l as [acc|acc| | |i|i|i e|p d|d]; intros Hstep.
  - destruct (caller w) eqn:Hcal; [ | discriminate ].
    injection Hstep as <-. eapply Step_Gather; eassumption.
  - destruct (caller w) eqn:Hcal; [ | discriminate ].
    injection Hstep as <-. eapply Step_Start; eassumption.
  - destruct (caller w) eqn:Hcal; [ | discriminate ].
    injection Hstep as <-. eapply Step_Stop; eassumption.
  - destruct (caller w) as [|f] eqn:Hcal; [ discriminate | ].
    unfold step_Stop in Hstep. destruct (s_pc f) eqn:Hpc.
    + destruct (server (zip w)) as [p|] eqn:Hp.
      * destruct (servers w !! p) as [srv|] eqn:Hsrv; simpl in Hstep;
          [ | discriminate ].
        destruct (http.Shutdown (s_ctx f) (clock w) srv (bound w))
          as [[[srv' bound'] t] err] eqn:Hsh.
        injection Hstep as <-. eapply Step_Shutdown; eassumption.
      * injection Hstep as <-. eapply Step_Shutdown_nil; eassumption.
    + destruct (s_wg f) as [p|] eqn:Hwg.
      * destruct (wgs w !! p) as [n|] eqn:Hn; simpl in Hstep;
          [ | discriminate ].
        destruct (sync.Wait_ready n) eqn:Hr; [ | discriminate ].
        injection Hstep as <-. eapply Step_Wait; eassumption.
      * injection Hstep as <-. eapply Step_Wait_nil; eassumption.
    + injection Hstep as <-. eapply Step_Cancel; eassumption.
  - unfold step_goroutine in Hstep.
    destruct (goroutines w !! i) as [g|] eqn:Hg; simpl in Hstep;
      [ | discriminate ].
    destruct (g_pc g) as [ | |router|router| |p|err|panicking| | ] eqn:Hpc.
    + destruct (wgs w !! g_wg g) as [n|] eqn:Hn; simpl in Hstep;
        [ | discriminate ].
      destruct (sync.Add 1 n) as [n'|] eqn:Ha; injection Hstep as <-.
      * eapply Step_Add; eassumption.
      * eapply Step_Add_panic; eassumption.
    + destruct (Listen_Register (g_acc g) (zip w)) as [router|] eqn:Hr;
        injection Hstep as <-.
      * eapply Step_Register; eassumption.
      * eapply Step_Register_nil; eassumption.
    + injection Hstep as <-. eapply Step_Server; eassumption.
    + injection Hstep as <-. eapply Step_Assign; eassumption.
    + destruct (server (zip w)) as [p|] eqn:Hp.
      * destruct (servers w !! p) as [srv|] eqn:Hsrv; simpl in Hstep;
          [ | discriminate ].
        destruct (http.bind srv (bound w)) as [[srv' bound'] err] eqn:Hb.
        injection Hstep as <-. eapply Step_Listen; eassumption.
      * injection Hstep as <-. eapply Step_Listen_nil; eassumption.
    + destruct (servers w !! p) as [srv|] eqn:Hsrv; simpl in Hstep;
        [ | discriminate ].
      destruct (http.inShutdown srv) eqn:Hin; [ | discriminate ].
      injection Hstep as <-. eapply Step_Closed; eassumption.
    + injection Hstep as <-. eapply Step_Report; eassumption.
    + destruct (wgs w !! g_wg g) as [n|] eqn:Hn; simpl in Hstep;
        [ | discriminate ].
      destruct (sync.Done n) as [n'|] eqn:Hd; injection Hstep as <-.
      * eapply (Step_Done w i g panicking n n'); eassumption.
      * eapply Step_Done_panic; eassumption.
    + discriminate.
    + discriminate.
  - destruct (goroutines w !! i) as [g|] eqn:Hg; simpl in Hstep;
      [ | discriminate ].
    destruct (g_pc g) as [ | |router| | | | | | | ] eqn:Hpc; try discriminate.
    injection Hstep as <-. eapply Step_Test; eassumption.
  - destruct (goroutines w !! i) as [g|] eqn:Hg; simpl in Hstep;
      [ | discriminate ].
    destruct (g_pc g) as [ | | | | |p| | | | ] eqn:Hpc; try discriminate.
    destruct (servers w !! p) as [srv|] eqn:Hsrv; simpl in Hstep;
      [ | discriminate ].
    destruct (http.close_listener srv (bound w)) as [srv' bound'] eqn:Hcl.
    injection Hstep as <-. eapply Step_AcceptError; eassumption.
  - destruct (servers w !! p) as [srv|] eqn:Hsrv; simpl in Hstep;
      [ | discriminate ].
    assert (http.listening srv = true ∧ (0 < d)%Z) as [Hl Hd].
    { destruct (http.listening srv); [ | discriminate ].
      destruct (Z.ltb_spec 0 d); [ split; [ reflexivity | assumption ]
                                 | discriminate ]. }
    destruct (http.listening srv && (0 <? d)%Z); [ | discriminate ].
    injection Hstep as <-. eapply Step_Inbound; eassumption.
  - destruct (Z.ltb_spec 0 d); [ | discriminate ].
    injection Hstep as <-. eapply Step_Tick; eassumption.
Qed.

(** A property that every step keeps holds along every schedule. *)
Lemma run_invariant (P : World → Prop) :
  (∀ l w w', Step l w w' → P w → P w') →
  ∀ ls w w', run ls w = Some w' → P w → P w'.
Proof.
  intros Hkeep ls. induction ls as [|l ls IH]; intros w w' Hrun HP;
    simpl in Hrun.
  - injection Hrun as <-. exact HP.
  - destruct (step l w) as [w1|] eqn:Hstep; simpl in Hrun; [ | discriminate ].
    apply (IH w1 w' Hrun). exact (Hkeep l w w1 (step_Step l w w1 Hstep) HP).
Qed.

(** ** Wait groups, goroutines and panics *)

Lemma sound_init (w : World) (last : option Outcome) :
  crashed w = false → goroutines w = [] → wgs w = [] →
  caller w = Idle last → sound w.
Proof.
  intros Hc Hg Hw Hcal. split.
  - exact Hc.
  - rewrite Hg, Hw. reflexivity.
  - intros i g. rewrite Hg. discriminate.
  - intros Hne. contradiction.
  - intros f. rewrite Hcal. discriminate.
Qed.

(** Steps that touch neither the goroutines, nor the wait groups, nor the
    plugin value. *)
Lemma sound_frame (w w' : World) :
  goroutines w' = goroutines w → wgs w' = wgs w → zip w' = zip w →
  crashed w' = crashed w →
  (∀ f, caller w' = InStop f → s_wg f = waitGroup (zip w)) →
  sound w → sound w'.
Proof.
  intros Hg Hw Hz Hc Hcal [Ha Hl Hgo Hst Hsp]. split.
  - rewrite Hc. exact Ha.
  - rewrite Hg, Hw. exact Hl.
  - intros i g. rewrite Hg, Hw, Hz. apply Hgo.
  - rewrite Hg, Hz. exact Hst.
  - rewrite Hz. exact Hcal.
Qed.

(** A move of goroutine [i] to [pc'] that leaves the counter of its wait
    group as [pc'] wants it. *)
Lemma sound_move (w w' : World) (i : nat) (g : Goroutine) (pc' : PC) :
  sound w →
  goroutines w !! i = Some g →
  goroutines w' = alter (set_pc pc') i (goroutines w) →
  length (wgs w') = length (wgs w) →
  (∀ j, j ≠ i → wgs w' !! j = wgs w !! j) →
  wgs w' !! i = Some (counter_of pc') →
  panicked pc' = false →
  (pc' = pc_ListenAndServe → is_Some (server (zip w'))) →
  (is_Some (server (zip w)) → is_Some (server (zip w'))) →
  handler (zip w') = handler (zip w) →
  waitGroup (zip w') = waitGroup (zip w) →
  caller w' = caller w →
  crashed w' = false →
  sound w'.
Proof.
  intros [Ha Hl Hgo Hst Hsp] Hgi Hg Hlen Hother Hmine Hpan Hsrv Hkeep Hh Hwg
    Hcal Hc.
  split.
  - exact Hc.
  - rewrite Hg, Hlen, length_alter. exact Hl.
  - intros j gj. rewrite Hg. destruct (decide (i = j)) as [<-|Hne].
    + rewrite list_lookup_alter_eq, Hgi. simpl. intros [= <-]. simpl.
      destruct (Hgo i g Hgi) as (Hwgi & _).
      repeat split; assumption.
    + rewrite list_lookup_alter_ne by exact Hne. intros Hgj.
      destruct (Hgo j gj Hgj) as (Hwgj & Hcnt & Hp & Hs).
      rewrite Hother by (intros ->; apply Hne; reflexivity).
      repeat split; try assumption. intros Hpc. apply Hkeep, Hs, Hpc.
  - rewrite Hg, Hh, Hwg, length_alter. intros Hne. apply Hst.
    intros Hnil. apply Hne. rewrite Hnil. reflexivity.
  - intros f. rewrite Hcal, Hwg. apply Hsp.
Qed.

(** All that [Start] leaves behind. *)
Lemma Start_fields (acc : Accumulator) (w : World) :
  let w' := (Start acc w).1 in
  goroutines w' = goroutines w ++ [{| g_wg := length (wgs w); g_acc := acc;
                                      g_pc := pc_Add |}]
  ∧ wgs w' = wgs w ++ [sync.zero]
  ∧ is_Some (handler (zip w'))
  ∧ (∀ h, handler (zip w) = Some h → handler (zip w') = Some h)
  ∧ waitGroup (zip w') = Some (length (wgs w))
  ∧ server (zip w') = server (zip w)
  ∧ ServiceAddress (zip w') = ServiceAddress (zip w)
  ∧ Port (zip w') = Port (zip w)
  ∧ Path (zip w') = Path (zip w)
  ∧ servers w' = servers w
  ∧ acc_calls w' = acc_calls w
  ∧ logs w' = logs w ++ ["starting..."]
  ∧ bound w' = bound w
  ∧ clock w' = clock w
  ∧ caller w' = caller w
  ∧ crashed w' = crashed w.
Proof.
  unfold Start. simpl.
  destruct (handler (zip w)) as [h|] eqn:Hh; simpl; rewrite ?Hh;
    repeat split; eauto; intros h' [= <-]; reflexivity.
Qed.

(** All that lines 149-154 leave behind. *)
Lemma Listen_server_fields (router : mux.Router) (w : World) :
  let w' := Listen_server router w in
  is_Some (server (zip w'))
  ∧ (∀ p, server (zip w) = Some p → w' = w)
  ∧ handler (zip w') = handler (zip w)
  ∧ waitGroup (zip w') = waitGroup (zip w)
  ∧ ServiceAddress (zip w') = ServiceAddress (zip w)
  ∧ Port (zip w') = Port (zip w)
  ∧ Path (zip w') = Path (zip w)
  ∧ goroutines w' = goroutines w
  ∧ wgs w' = wgs w
  ∧ acc_calls w' = acc_calls w
  ∧ logs w' = logs w
  ∧ bound w' = bound w
  ∧ clock w' = clock w
  ∧ caller w' = caller w
  ∧ crashed w' = crashed w.
Proof.
  unfold Listen_server.
  destruct (server (zip w)) as [p|] eqn:Hp; simpl; rewrite ?Hp;
    repeat split; eauto; intros; discriminate.
Qed.

Ltac sound_at Hs Hg Hpc :=
  let Hwg := fresh "Hwg" in
  let Hcnt := fresh "Hcnt" in
  let Hpan := fresh "Hpan" in
  let Hsrv := fresh "Hsrv" in
  destruct (sound_goroutine _ Hs _ _ Hg) as (Hwg & Hcnt & Hpan & Hsrv);
  rewrite Hpc in Hcnt, Hpan, Hsrv; unfold counter_of in Hcnt;
  cbn [active] in Hcnt; cbn [panicked] in Hpan.

(** Every step keeps the world sound. *)
Lemma Step_sound (l : Label) (w w' : World) :
  Step l w w' → sound w → sound w'.
Proof.
  intros HS Hs.
  destruct HS as
    [ acc w last Hc Hcal | acc w last Hc Hcal | w last Hc Hcal
    | w f Hc Hcal Hpc Hp | w f p srv srv' bound' t err Hc Hcal Hpc Hp Hsv Hsh
    | w f Hc Hcal Hpc Hw | w f p n Hc Hcal Hpc Hw Hn Hr | w f Hc Hcal Hpc
    | w i g n n' Hc Hg Hpc Hn Ha | w i g n Hc Hg Hpc Hn Ha
    | w i g router Hc Hg Hpc Hr | w i g Hc Hg Hpc Hr
    | w i g router Hc Hg Hpc | w i g Hc Hg Hpc Hp
    | w i g p srv srv' bound' err Hc Hg Hpc Hp Hsv Hb
    | w i g p srv Hc Hg Hpc Hsv Hin | w i g err Hc Hg Hpc
    | w i g panicking n n' Hc Hg Hpc Hn Hd | w i g panicking n Hc Hg Hpc Hn Hd
    | w i e g p srv srv' bound' Hc Hg Hpc Hsv Hcl
    | w p d srv Hc Hsv Hl Hd | w d Hc Hd
    | w i g router Hc Hg Hpc | w i g router Hc Hg Hpc ].
  - apply (sound_frame w); try reflexivity; [ | exact Hs ].
    intros f. simpl. discriminate.
  - pose proof (Start_fields acc w) as HF. cbv zeta in HF.
    set (w1 := (Start acc w).1) in *. clearbody w1.
    destruct HF
      as (Hg' & Hw' & Hh' & _ & Hwg' & Hsrv' & _ & _ & _ & _ & _ & _ & _ & _
          & _ & Hc').
    destruct Hs as [Ha Hl Hgo Hst Hsp]. split; simpl.
    + rewrite Hc'. exact Ha.
    + rewrite Hg', Hw', !length_app, Hl. reflexivity.
    + intros i g. rewrite Hg', Hw', Hsrv'.
      destruct (decide (i < length (goroutines w))) as [Hlt|Hge].
      * rewrite (lookup_app_l (goroutines w)) by exact Hlt.
        rewrite (lookup_app_l (wgs w)) by (rewrite Hl; exact Hlt).
        apply Hgo.
      * destruct (decide (i = length (goroutines w))) as [->|Hne].
        -- rewrite list_lookup_middle by reflexivity.
           rewrite list_lookup_middle by (symmetry; exact Hl).
           intros [= <-]. simpl. repeat split; try exact Hl. discriminate.
        -- rewrite lookup_ge_None_2; [ discriminate | ].
           rewrite length_app. simpl. lia.
    + intros _. split; [ exact Hh' | ].
      rewrite Hwg', Hg', length_app, Hl. simpl. f_equal. lia.
    + intros f. discriminate.
  - apply (sound_frame w); try reflexivity; [ | exact Hs ].
    intros f. unfold Stop_enter. simpl. intros [= <-]. reflexivity.
  - apply (sound_frame w); try reflexivity; [ | exact Hs ].
    intros f'. unfold at_pc. simpl. intros [= <-]. simpl.
    apply (sound_stop w Hs). exact Hcal.
  - apply (sound_frame w); try reflexivity; [ | exact Hs ].
    intros f'. unfold at_pc. simpl. intros [= <-]. simpl.
    apply (sound_stop w Hs). exact Hcal.
  - apply (sound_frame w); try reflexivity; [ | exact Hs ].
    intros f'. unfold at_pc. simpl. intros [= <-]. simpl.
    apply (sound_stop w Hs). exact Hcal.
  - apply (sound_frame w); try reflexivity; [ | exact Hs ].
    intros f'. unfold at_pc. simpl. intros [= <-]. simpl.
    apply (sound_stop w Hs). exact Hcal.
  - apply (sound_frame w); try reflexivity; [ | exact Hs ].
    intros f'. simpl. discriminate.
  - (* Add *)
    sound_at Hs Hg Hpc. rewrite Hwg in Hn. rewrite Hn in Hcnt.
    injection Hcnt as ->. injection Ha as <-.
    apply (sound_move w _ i g pc_Register Hs Hg); simpl;
      try reflexivity; try exact Hc; try (intros; assumption).
    + apply length_insert.
    + intros j Hj. apply list_lookup_insert_ne. rewrite Hwg. congruence.
    + rewrite Hwg. apply list_lookup_insert_eq.
      apply (lookup_lt_Some _ _ _ Hn).
    + discriminate.
  - (* Add panics *)
    sound_at Hs Hg Hpc. rewrite Hwg in Hn. rewrite Hn in Hcnt.
    injection Hcnt as ->. discriminate.
  - (* Register *)
    sound_at Hs Hg Hpc.
    apply (sound_move w _ i g (pc_Server router) Hs Hg); simpl;
      try reflexivity; try exact Hc; try (intros; assumption).
    discriminate.
  - (* Register on a nil handler *)
    exfalso. unfold Listen_Register in Hr.
    destruct (sound_started w Hs) as [[h Hh] _].
    { intros Hnil. rewrite Hnil in Hg. discriminate. }
    rewrite Hh in Hr.
    destruct (Register h mux.NewRouter (NewLineProtocolConverter (g_acc g))).
    discriminate.
  - (* the server *)
    sound_at Hs Hg Hpc.
    pose proof (Listen_server_fields router w) as HF. cbv zeta in HF.
    set (w1 := Listen_server router w) in *. clearbody w1.
    destruct HF
      as (Hsome & _ & Hh & Hw & _ & _ & _ & Hgo & Hwgs & _ & _ & _ & _ & Hcal
          & Hcr).
    apply (sound_move w _ i g pc_ListenAndServe Hs); simpl;
      rewrite ?Hgo, ?Hwgs, ?Hh, ?Hw, ?Hcal, ?Hcr;
      try reflexivity; try assumption; try (intros; assumption).
  - (* ListenAndServe on a nil server *)
    sound_at Hs Hg Hpc. destruct (Hsrv eq_refl) as [p Hp']. congruence.
  - (* ListenAndServe *)
    sound_at Hs Hg Hpc.
    apply (sound_move w _ i g
             (match err with None => pc_Serving p | Some _ => pc_Err err end)
             Hs Hg); simpl;
      try reflexivity; try exact Hc; try (intros; assumption);
      destruct err; try reflexivity; try assumption; discriminate.
  - (* the server was shut down *)
    sound_at Hs Hg Hpc.
    apply (sound_move w _ i g (pc_Err (Some http.ErrServerClosed)) Hs Hg);
      simpl; try reflexivity; try exact Hc; try (intros; assumption).
    discriminate.
  - (* the report *)
    sound_at Hs Hg Hpc.
    apply (sound_move w _ i g (pc_Done false) Hs Hg);
      destruct err; simpl;
      try reflexivity; try exact Hc; try (intros; assumption);
      discriminate.
  - (* Done *)
    sound_at Hs Hg Hpc. destruct panicking; [ discriminate | ].
    rewrite Hwg in Hn. rewrite Hn in Hcnt. injection Hcnt as ->.
    injection Hd as <-.
    apply (sound_move w _ i g pc_Exit Hs Hg); simpl;
      try reflexivity; try exact Hc; try (intros; assumption).
    + apply length_insert.
    + intros j Hj. apply list_lookup_insert_ne. rewrite Hwg. congruence.
    + rewrite Hwg. apply list_lookup_insert_eq.
      apply (lookup_lt_Some _ _ _ Hn).
    + discriminate.
  - (* Done panics *)
    sound_at Hs Hg Hpc. rewrite Hwg in Hn. rewrite Hn in Hcnt.
    injection Hcnt as ->. discriminate.
  - (* the accept loop fails *)
    sound_at Hs Hg Hpc.
    apply (sound_move w _ i g (pc_Err (Some e)) Hs Hg); simpl;
      try reflexivity; try exact Hc; try (intros; assumption).
    discriminate.
  - apply (sound_frame w); try reflexivity; [ | exact Hs ].
    intros f. simpl. apply (sound_stop w Hs).
  - apply (sound_frame w); try reflexivity; [ | exact Hs ].
    intros f. simpl. apply (sound_stop w Hs).
  - (* the test alone *)
    sound_at Hs Hg Hpc.
    apply (sound_move w _ i g
             (match server (zip w) with
              | None => pc_Assign router
              | Some _ => pc_ListenAndServe
              end) Hs Hg); simpl;
      try reflexivity; try exact Hc; try (intros; assumption);
      destruct (server (zip w)) eqn:Hp; try reflexivity; try assumption;
      try discriminate.
    intros _. eauto.
  - (* the assignment alone *)
    sound_at Hs Hg Hpc.
    apply (sound_move w _ i g pc_ListenAndServe Hs Hg); simpl;
      try reflexivity; try exact Hc; try (intros; assumption);
      intros; eauto.
Qed.

(** The rules of [Step] are all enabled in [step]. *)
Lemma Step_step (l : Label) (w w' : World) :
  Step l w w' → step l w = Some w'.
Proof.
  intros HS.
  destruct HS as
    [ acc w last Hc Hcal | acc w last Hc Hcal | w last Hc Hcal
    | w f Hc Hcal Hpc Hp | w f p srv srv' bound' t err Hc Hcal Hpc Hp Hsv Hsh
    | w f Hc Hcal Hpc Hw | w f p n Hc Hcal Hpc Hw Hn Hr | w f Hc Hcal Hpc
    | w i g n n' Hc Hg Hpc Hn Ha | w i g n Hc Hg Hpc Hn Ha
    | w i g router Hc Hg Hpc Hr | w i g Hc Hg Hpc Hr
    | w i g router Hc Hg Hpc | w i g Hc Hg Hpc Hp
    | w i g p srv srv' bound' err Hc Hg Hpc Hp Hsv Hb
    | w i g p srv Hc Hg Hpc Hsv Hin | w i g err Hc Hg Hpc
    | w i g panicking n n' Hc Hg Hpc Hn Hd | w i g panicking n Hc Hg Hpc Hn Hd
    | w i e g p srv srv' bound' Hc Hg Hpc Hsv Hcl
    | w p d srv Hc Hsv Hl Hd | w d Hc Hd
    | w i g router Hc Hg Hpc | w i g router Hc Hg Hpc ];
    unfold step, step_Stop, step_goroutine;
    repeat match goal with
           | H : crashed _ = _ |- _ => rewrite H; clear H
           | H : caller _ = _ |- _ => rewrite H; clear H
           | H : goroutines _ !! _ = _ |- _ => rewrite H; clear H; simpl
           | H : g_pc _ = _ |- _ => rewrite H; clear H
           | H : s_pc _ = _ |- _ => rewrite H; clear H
           | H : s_wg _ = _ |- _ => rewrite H; clear H
           | H : server _ = _ |- _ => rewrite H; clear H
           | H : servers _ !! _ = _ |- _ => rewrite H; clear H; simpl
           | H : wgs _ !! _ = _ |- _ => rewrite H; clear H; simpl
           | H : sync.Add _ _ = _ |- _ => rewrite H; clear H
           | H : sync.Done _ = _ |- _ => rewrite H; clear H
           | H : sync.Wait_ready _ = _ |- _ => rewrite H; clear H
           | H : Listen_Register _ _ = _ |- _ => rewrite H; clear H
           | H : http.Shutdown _ _ _ _ = _ |- _ => rewrite H; clear H
           | H : http.bind _ _ = _ |- _ => rewrite H; clear H
           | H : http.close_listener _ _ = _ |- _ => rewrite H; clear H
           | H : http.inShutdown _ = _ |- _ => rewrite H; clear H
           end;
    try reflexivity.
  - assert (Hd' : (0 <? d)%Z = true) by (apply Z.ltb_lt; assumption).
    rewrite Hd'. rewrite Hl at 1. reflexivity.
  - assert (Hd' : (0 <? d)%Z = true) by (apply Z.ltb_lt; assumption).
    rewrite Hd'. reflexivity.
Qed.

(** Every world reached from a process start is sound. *)
Lemma run_sound (ls : list Label) (w0 w : World) (last : option Outcome) :
  crashed w0 = false → goroutines w0 = [] → wgs w0 = [] →
  caller w0 = Idle last →
  run ls w0 = Some w → sound w.
Proof.
  intros Hc Hg Hw Hcal Hrun.
  apply (run_invariant sound Step_sound ls w0 w Hrun).
  exact (sound_init w0 last Hc Hg Hw Hcal).
Qed.

(** X1: the goroutine calls no method on a nil field of the plugin value.
    In every world reached from a process start, under every schedule, a
    handler is in place as soon as a goroutine exists, so that the call of
    line 147 is made on a handler, and a server is in place whenever a
    goroutine stands at the call of line 155, so that [ListenAndServe] is
    called on a server.  ([Stop] has no such guarantee for the two fields
    it calls methods on.) *)
Theorem Listen_receivers_are_set (ls : list Label) (w0 w : World)
    (last : option Outcome) :
  crashed w0 = false → goroutines w0 = [] → wgs w0 = [] →
  caller w0 = Idle last →
  run ls w0 = Some w →
  ∀ i g, goroutines w !! i = Some g →
    is_Some (handler (zip w))
    ∧ is_Some (Listen_Register (g_acc g) (zip w))
    ∧ (g_pc g = pc_ListenAndServe → is_Some (server (zip w))).
Proof.
  intros Hc Hg Hw Hcal Hrun i g Hgi.
  pose proof (run_sound ls w0 w last Hc Hg Hw Hcal Hrun) as Hs.
  destruct (sound_goroutine w Hs i g Hgi) as (_ & _ & _ & Hsrv).
  destruct (sound_started w Hs) as [[h Hh] _].
  { intros Hnil. rewrite Hnil in Hgi. discriminate. }
  split; [ exists h; exact Hh | ].
  split; [ | exact Hsrv ].
  unfold Listen_Register. rewrite Hh.
  destruct (Register h mux.NewRouter (NewLineProtocolConverter (g_acc g))).
  eauto.
Qed.

Lemma Listen_receivers_are_set_witness :
  is_Some (handler (zip binding_world))
  ∧ is_Some (server (zip binding_world)).
Proof.
  destruct (Listen_receivers_are_set
              [CallStart 7; Run 0; Run 0; Run 0]
              (boot fresh [":9411"] 0) binding_world None)
    with (i := 0) (g := {| g_wg := 0; g_acc := 7; g_pc := pc_ListenAndServe |})
    as (Hh & _ & Hs);
    [ reflexivity | reflexivity | reflexivity | reflexivity
    | vm_compute; reflexivity | vm_compute; reflexivity | ].
  split; [ exact Hh | apply Hs; reflexivity ].
Defined.

(** X2: each [Start] makes one wait group and one goroutine, and they stay
    paired: the [i]-th goroutine holds the [i]-th wait group, and its counter
    is 1 from the goroutine's [Add] to its [Done] and 0 before and after
    (so [Add] and [Done] never see a negative counter). *)
Theorem wait_group_counters (ls : list Label) (w0 w : World)
    (last : option Outcome) :
  crashed w0 = false → goroutines w0 = [] → wgs w0 = [] →
  caller w0 = Idle last →
  run ls w0 = Some w →
  length (wgs w) = length (goroutines w)
  ∧ ∀ i g, goroutines w !! i = Some g →
      g_wg g = i
      ∧ wgs w !! g_wg g = Some (if active (g_pc g) then 1 else 0)%Z.
Proof.
  intros Hc Hg Hw Hcal Hrun.
  pose proof (run_sound ls w0 w last Hc Hg Hw Hcal Hrun) as Hs.
  split; [ exact (sound_length w Hs) | ].
  intros i g Hgi.
  destruct (sound_goroutine w Hs i g Hgi) as (Hwg & Hcnt & _).
  split; [ exact Hwg | ]. rewrite Hwg. exact Hcnt.
Qed.

Lemma wait_group_counters_witness :
  wgs serving_world !! 0 = Some 1%Z.
Proof.
  destruct (wait_group_counters
              [CallStart 0; Run 0; Run 0; Run 0; Run 0; Inbound 0 50]
              (boot fresh [] 100) serving_world None)
    as [_ Hgo];
    [ reflexivity | reflexivity | reflexivity | reflexivity
    | vm_compute; reflexivity | ].
  destruct (Hgo 0 {| g_wg := 0; g_acc := 0; g_pc := pc_Serving 0 |})
    as (_ & Hcnt); [ vm_compute; reflexivity | exact Hcnt ].
Defined.

(** X3: what the deferred [Wait] of [Stop] waits for.  In every world
    reached from a process start in which [Stop] stands at its [Wait], the
    call is blocked when the goroutine of the most recent [Start] is between
    its [Add] and its [Done], and it passes when that goroutine has not yet
    run [Add] or has run [Done]; goroutines of earlier [Start]s are not
    looked at. *)
Theorem Wait_waits_for_last_goroutine (ls : list Label) (w0 w : World)
    (last0 : option Outcome) (f : StopFrame) (g : Goroutine) :
  crashed w0 = false → goroutines w0 = [] → wgs w0 = [] →
  caller w0 = Idle last0 →
  run ls w0 = Some w →
  caller w = InStop f → s_pc f = sp_Wait →
  last (goroutines w) = Some g →
  (active (g_pc g) = true → step RunStop w = None)
  ∧ (active (g_pc g) = false →
     step RunStop w
     = Some (with_caller (at_pc sp_Cancel (s_panicking f) f) w)).
Proof.
  intros Hc Hg Hw Hcal Hrun Hstop Hpc Hlast.
  pose proof (run_sound ls w0 w last0 Hc Hg Hw Hcal Hrun) as Hs.
  rewrite last_lookup in Hlast.
  destruct (sound_goroutine w Hs _ g Hlast) as (_ & Hcnt & _).
  destruct (sound_started w Hs) as [_ Hwg].
  { intros Hnil. rewrite Hnil in Hlast. discriminate. }
  rewrite <- (sound_stop w Hs f Hstop) in Hwg.
  replace (length (goroutines w) - 1) with (pred (length (goroutines w)))
    in Hwg by lia.
  unfold step. rewrite (sound_alive w Hs), Hstop. unfold step_Stop.
  rewrite Hpc, Hwg, Hcnt. simpl. unfold counter_of.
  split; intros ->; reflexivity.
Qed.

Lemma Wait_waits_for_last_goroutine_witness :
  step RunStop waiting_world = None.
Proof.
  destruct (Wait_waits_for_last_goroutine
              [CallStart 0; Run 0; Run 0; Run 0; Run 0; Inbound 0 50;
               CallStop; RunStop]
              (boot fresh [] 100) waiting_world None
              {| s_ctx := {| context.deadline := Some 105%Z |};
                 s_wg := Some 0; s_pc := sp_Wait; s_panicking := false |}
              {| g_wg := 0; g_acc := 0; g_pc := pc_Serving 0 |})
    as [Hblocked _];
    [ reflexivity | reflexivity | reflexivity | reflexivity
    | vm_compute; reflexivity | vm_compute; reflexivity | reflexivity
    | vm_compute; reflexivity | ].
  apply Hblocked. reflexivity.
Defined.

(** The rules of [Step], with their premises named. *)
Ltac Step_cases HS :=
  destruct HS as
    [ acc w last Hc Hcal | acc w last Hc Hcal | w last Hc Hcal
    | w f Hc Hcal Hpc Hp | w f p srv srv' bound' t err Hc Hcal Hpc Hp Hsv Hsh
    | w f Hc Hcal Hpc Hw | w f p n Hc Hcal Hpc Hw Hn Hr | w f Hc Hcal Hpc
    | w i g n n' Hc Hg Hpc Hn Ha | w i g n Hc Hg Hpc Hn Ha
    | w i g router Hc Hg Hpc Hr | w i g Hc Hg Hpc Hr
    | w i g router Hc Hg Hpc | w i g Hc Hg Hpc Hp
    | w i g p srv srv' bound' err Hc Hg Hpc Hp Hsv Hb
    | w i g p srv Hc Hg Hpc Hsv Hin | w i g err Hc Hg Hpc
    | w i g panicking n n' Hc Hg Hpc Hn Hd | w i g panicking n Hc Hg Hpc Hn Hd
    | w i e g p srv srv' bound' Hc Hg Hpc Hsv Hcl
    | w p d srv Hc Hsv Hl Hd | w d Hc Hd
    | w i g router Hc Hg Hpc | w i g router Hc Hg Hpc ].

Lemma same_config_refl (z : Zipkin) : same_config z z.
Proof. repeat split; auto. Qed.

Lemma same_config_trans (z1 z2 z3 : Zipkin) :
  same_config z1 z2 → same_config z2 z3 → same_config z1 z3.
Proof.
  intros (Ha & Hb & Hc & Hd & He) (Ha' & Hb' & Hc' & Hd' & He').
  repeat split; try congruence; auto.
Qed.

(** No step rewrites the configuration, replaces a handler or clears the
    server. *)
Lemma Step_same_config (l : Label) (w w' : World) :
  Step l w w' → same_config (zip w) (zip w').
Proof.
  intros HS. Step_cases HS; try apply same_config_refl.
  - pose proof (Start_fields acc w) as HF. cbv zeta in HF.
    set (w1 := (Start acc w).1) in *. clearbody w1.
    destruct HF as (_ & _ & _ & Hh & _ & Hs & Ha & Hp & Hpath & _).
    repeat split; simpl; try assumption. rewrite Hs. auto.
  - pose proof (Listen_server_fields router w) as HF. cbv zeta in HF.
    set (w1 := Listen_server router w) in *. clearbody w1.
    destruct HF as (Hsome & _ & Hh & _ & Ha & Hp & Hpath & _).
    repeat split; simpl; try assumption.
    + intros h. rewrite Hh. auto.
    + intros _. exact Hsome.
  - destruct err; apply same_config_refl.
  - destruct panicking; apply same_config_refl.
  - repeat split; simpl; auto.
Qed.

(** X4: along every schedule the service address, the port and the path of
    the plugin value stay what they were, a handler, once set, is never
    replaced, and the server field, once set, is never nil again: [Start]
    fills the handler in only when it is nil, [Listen] only ever writes a
    server into the server field, and [Stop] and [Gather] write nothing. *)
Theorem configuration_is_kept (ls : list Label) (w w' : World) :
  run ls w = Some w' →
  ServiceAddress (zip w') = ServiceAddress (zip w)
  ∧ Port (zip w') = Port (zip w)
  ∧ Path (zip w') = Path (zip w)
  ∧ (∀ h, handler (zip w) = Some h → handler (zip w') = Some h)
  ∧ (is_Some (server (zip w)) → is_Some (server (zip w'))).
Proof.
  intros Hrun.
  apply (run_invariant (λ w1, same_config (zip w) (zip w1))
           (λ l w1 w2 HS H, same_config_trans _ _ _ H
                              (Step_same_config l w1 w2 HS))
           ls w w' Hrun).
  apply same_config_refl.
Qed.

Lemma configuration_is_kept_witness :
  Port (zip serving_world) = 9411%Z
  ∧ Path (zip serving_world) = "/api/v1/spans".
Proof.
  destruct (configuration_is_kept
              [CallStart 0; Run 0; Run 0; Run 0; Run 0; Inbound 0 50]
              (boot fresh [] 100) serving_world)
    as (_ & Hport & Hpath & _); [ vm_compute; reflexivity | ].
  split; [ exact Hport | exact Hpath ].
Defined.

(** The server itself can be replaced: with two [Start]s whose goroutines
    both find the field nil before either writes it, the second assignment
    overwrites the first, and both goroutines then call [ListenAndServe] on
    the second server. *)
Example server_may_be_replaced :
  ∃ w1 w2,
    run [CallStart 0; CallStart 1; Run 0; Run 0; Test 0; Run 1; Run 1; Test 1;
         Run 0] (boot fresh [] 0) = Some w1
    ∧ server (zip w1) = Some 0
    ∧ run [Run 1; Run 0; Run 1] w1 = Some w2
    ∧ server (zip w2) = Some 1
    ∧ g_pc <$> goroutines w2
      = [pc_Serving 1; pc_Err (Some (http.ErrAddrInUse ":9411"))].
Proof.
  eexists. eexists. split; [ vm_compute; reflexivity | ].
  split; [ reflexivity | ]. split; [ vm_compute; reflexivity | ].
  split; reflexivity.
Qed.

Lemma bind_shut (srv : http.Server) (bound : list string) :
  http.inShutdown srv = true →
  http.bind srv bound = (srv, bound, Some http.ErrServerClosed).
Proof. intros H. unfold http.bind. rewrite H. reflexivity. Qed.

Lemma close_listener_inShutdown (srv srv' : http.Server)
    (bound bound' : list string) :
  http.close_listener srv bound = (srv', bound') →
  http.inShutdown srv' = http.inShutdown srv.
Proof.
  unfold http.close_listener.
  destruct (http.listening srv); intros [= <- _]; reflexivity.
Qed.

Lemma insert_keeps_shut (l : list http.Server) (p p0 : ptr)
    (srv0 srv' : http.Server) :
  l !! p0 = Some srv0 →
  (http.inShutdown srv0 = true → http.inShutdown srv' = true) →
  (∃ srv, l !! p = Some srv ∧ http.inShutdown srv = true) →
  ∃ srv, <[p0 := srv']> l !! p = Some srv ∧ http.inShutdown srv = true.
Proof.
  intros H0 Hmono (srv & Hp & Hshut).
  destruct (decide (p0 = p)) as [->|Hne].
  - exists srv'. split.
    + apply list_lookup_insert_eq. apply (lookup_lt_Some _ _ _ Hp).
    + apply Hmono. rewrite Hp in H0. injection H0 as <-. exact Hshut.
  - exists srv. split; [ | exact Hshut ].
    rewrite list_lookup_insert_ne by exact Hne. exact Hp.
Qed.

(** A server that was shut down stays shut down, and stays [z.server]. *)
Lemma Listen_server_Some (router : mux.Router) (w : World) (p : ptr) :
  server (zip w) = Some p → Listen_server router w = w.
Proof. intros Hp. unfold Listen_server. rewrite Hp. reflexivity. Qed.

Lemma no_assign_same (w w' : World) :
  goroutines w' = goroutines w → no_assign w → no_assign w'.
Proof. intros Hg H i g. rewrite Hg. apply H. Qed.

Lemma no_assign_move (w w' : World) (i : nat) (pc' : PC) :
  goroutines w' = alter (set_pc pc') i (goroutines w) →
  assigning pc' = false →
  no_assign w → no_assign w'.
Proof.
  intros Hg Hpc H j gj. rewrite Hg.
  destruct (decide (i = j)) as [<-|Hne].
  - rewrite list_lookup_alter_eq.
    destruct (goroutines w !! i) as [g|]; simpl; [ | discriminate ].
    intros [= <-]. exact Hpc.
  - rewrite list_lookup_alter_ne by exact Hne. apply H.
Qed.

(** While a server is set and no goroutine stands between the test and the
    assignment, none comes to stand there. *)
Lemma Step_no_assign (l : Label) (w w' : World) :
  Step l w w' → is_Some (server (zip w)) → no_assign w → no_assign w'.
Proof.
  intros HS [q Hq] Hno.
  Step_cases HS; try destruct err; try destruct panicking;
    try (apply (no_assign_same w); [ reflexivity | exact Hno ]);
    try (eapply (no_assign_move w); [ reflexivity | reflexivity | exact Hno ]).
  - pose proof (Start_fields acc w) as HF. cbv zeta in HF.
    set (w1 := (Start acc w).1) in *. clearbody w1.
    destruct HF as (Hg & _). intros i g. simpl. rewrite Hg.
    intros Hi. apply lookup_app_Some in Hi as [Hi|[_ Hi]].
    + exact (Hno i g Hi).
    + apply list_lookup_singleton_Some in Hi as [_ <-]. reflexivity.
  - rewrite (Listen_server_Some router w q Hq).
    eapply (no_assign_move w); [ reflexivity | reflexivity | exact Hno ].
  - rewrite Hq.
    eapply (no_assign_move w); [ reflexivity | reflexivity | exact Hno ].
Qed.

(** A server that was shut down stays shut down and stays [z.server], as
    long as no goroutine stands between the test and the assignment. *)
Lemma Step_shut_down (q : ptr) (l : Label) (w w' : World) :
  Step l w w' → no_assign w → shut_down q w → shut_down q w'.
Proof.
  intros HS Hno [Hsrv Hshut]. unfold shut_down.
  Step_cases HS; try (split; [ exact Hsrv | exact Hshut ]).
  - pose proof (Start_fields acc w) as HF. cbv zeta in HF.
    set (w1 := (Start acc w).1) in *. clearbody w1.
    destruct HF as (_ & _ & _ & _ & _ & Hz & _ & _ & _ & Hs & _).
    simpl. rewrite Hz, Hs. split; [ exact Hsrv | exact Hshut ].
  - split; [ exact Hsrv | ]. simpl.
    apply (insert_keeps_shut _ _ _ srv); [ exact Hsv | | exact Hshut ].
    intros _.
    destruct (Shutdown_returns (s_ctx f) (clock w) srv (bound w))
      as (s1 & b1 & t1 & e1 & Heq & Hin & _).
    rewrite Hsh in Heq. injection Heq as <- _ _ _. exact Hin.
  - rewrite (Listen_server_Some router w q Hsrv).
    split; [ exact Hsrv | exact Hshut ].
  - split; [ exact Hsrv | ]. simpl.
    apply (insert_keeps_shut _ _ _ srv); [ exact Hsv | | exact Hshut ].
    intros Hin. rewrite (bind_shut srv (bound w) Hin) in Hb.
    injection Hb as <- _ _. exact Hin.
  - destruct err; split; [ exact Hsrv | exact Hshut | exact Hsrv
                         | exact Hshut ].
  - destruct panicking; split; [ exact Hsrv | exact Hshut | exact Hsrv
                               | exact Hshut ].
  - split; [ exact Hsrv | ]. simpl.
    apply (insert_keeps_shut _ _ _ srv); [ exact Hsv | | exact Hshut ].
    rewrite (close_listener_inShutdown _ _ _ _ Hcl). auto.
  - split; [ exact Hsrv | ]. simpl.
    apply (insert_keeps_shut _ _ _ srv); [ exact Hsv | | exact Hshut ].
    auto.
  - specialize (Hno i g Hg). rewrite Hpc in Hno. discriminate.
Qed.

Lemma Step_settled (q : ptr) (l : Label) (w w' : World) :
  Step l w w' →
  shut_down q w ∧ no_assign w → shut_down q w' ∧ no_assign w'.
Proof.
  intros HS [Hshut Hno]. split.
  - exact (Step_shut_down q l w w' HS Hno Hshut).
  - apply (Step_no_assign l w w' HS); [ | exact Hno ].
    destruct Hshut as [Hq _]. eauto.
Qed.

(** X5: the plugin cannot be restarted.  Once the server that [z.server]
    points to has been shut down, and no goroutine stands between the test
    of line 149 and the assignment it guards, the field keeps pointing to
    that server and the server stays shut down along every schedule
    ([Stop] does not clear the field, and [Listen] builds a server only
    after finding the field nil), so every goroutine that later calls
    [ListenAndServe] gets [ErrServerClosed] at once, without binding. *)
Theorem no_restart_after_Shutdown (ls : list Label) (w w' : World)
    (p : ptr) (srv : http.Server) :
  server (zip w) = Some p →
  servers w !! p = Some srv →
  http.inShutdown srv = true →
  (∀ i g, goroutines w !! i = Some g → assigning (g_pc g) = false) →
  run ls w = Some w' →
  server (zip w') = Some p
  ∧ (∃ srv', servers w' !! p = Some srv' ∧ http.inShutdown srv' = true)
  ∧ ∀ i g,
      crashed w' = false →
      goroutines w' !! i = Some g →
      g_pc g = pc_ListenAndServe →
      ∃ w'',
        step (Run i) w' = Some w''
        ∧ g_pc <$> goroutines w'' !! i
          = Some (pc_Err (Some http.ErrServerClosed))
        ∧ bound w'' = bound w'
        ∧ servers w'' = servers w'.
Proof.
  intros Hp Hsrv Hin Hno Hrun.
  assert (Hshut : shut_down p w' ∧ no_assign w').
  { apply (run_invariant (λ w1, shut_down p w1 ∧ no_assign w1)
             (Step_settled p) ls w w' Hrun).
    split; [ | exact Hno ]. split; [ exact Hp | ].
    exists srv. split; assumption. }
  destruct Hshut as ((Hp' & srv' & Hsrv' & Hin') & _).
  split; [ exact Hp' | ]. split; [ exists srv'; split; assumption | ].
  intros i g Hc Hg Hpc. eexists. split.
  - apply Step_step.
    apply (Step_Listen w' i g p srv' srv' (bound w')
             (Some http.ErrServerClosed)); try assumption.
    apply bind_shut, Hin'.
  - simpl. rewrite list_lookup_alter_eq, Hg. simpl.
    repeat split. apply list_insert_id. exact Hsrv'.
Qed.

Lemma no_restart_after_Shutdown_witness :
  ∃ w'',
    step (Run 1) restarted_world = Some w''
    ∧ g_pc <$> goroutines w'' !! 1 = Some (pc_Err (Some http.ErrServerClosed)).
Proof.
  destruct (no_restart_after_Shutdown
              [CallStart 0; Run 1; Run 1; Run 1]
              stopped_world restarted_world 0
              {| http.Addr := ":9411"; http.Handler := ["/api/v1/spans"];
                 http.inShutdown := true; http.listening := false;
                 http.busy_until := 0 |})
    as (_ & _ & Hgo);
    [ reflexivity | vm_compute; reflexivity | reflexivity
    | intros [|[|i]] g; vm_compute; intros [= <-]; reflexivity
    | vm_compute; reflexivity | ].
  destruct (Hgo 1 {| g_wg := 1; g_acc := 0; g_pc := pc_ListenAndServe |})
    as (w'' & Hstep & Hpc & _);
    [ reflexivity | vm_compute; reflexivity | reflexivity | ].
  exists w''. split; [ exact Hstep | exact Hpc ].
Defined.

(** Running a schedule whose first label follows a known rule. *)
Lemma run_cons_Step (l : Label) (ls : list Label) (w w1 : World) :
  Step l w w1 → run (l :: ls) w = run ls w1.
Proof. intros HS. simpl. rewrite (Step_step l w w1 HS). reflexivity. Qed.

(** X6: a stop of a plugin that serves.  When the goroutine of the current
    wait group is in its accept loop on [z.server], the schedule in which
    [Stop] shuts the server down, the goroutine leaves and [Stop] gets
    through its [Wait] runs to the end: [Stop] returns normally, the
    goroutine has exited, the wait group is back at zero, the server is shut
    down with its listener closed, the plugin value is untouched, and the
    accumulator has received exactly one more call, the report of
    [ErrServerClosed]: a clean stop is reported as an error. *)
Theorem Stop_of_a_serving_plugin (w : World) (i : nat) (g : Goroutine)
    (p : ptr) (srv : http.Server) (last : option Outcome) :
  crashed w = false →
  caller w = Idle last →
  server (zip w) = Some p →
  servers w !! p = Some srv →
  goroutines w !! i = Some g →
  g_pc g = pc_Serving p →
  waitGroup (zip w) = Some (g_wg g) →
  wgs w !! g_wg g = Some 1%Z →
  ∃ w',
    run [CallStop; RunStop; Run i; Run i; Run i; RunStop; RunStop] w = Some w'
    ∧ caller w' = Idle (Some (Returned None))
    ∧ g_pc <$> goroutines w' !! i = Some pc_Exit
    ∧ acc_calls w'
      = acc_calls w
        ++ [AddError i (g_acc g) "E! Error listening: http: Server closed"]
    ∧ wgs w' !! g_wg g = Some 0%Z
    ∧ (∃ srv', servers w' !! p = Some srv'
               ∧ http.inShutdown srv' = true ∧ http.listening srv' = false)
    ∧ zip w' = zip w.
Proof.
  intros Hc Hcal Hp Hsrv Hg Hpc Hwg Hcnt.
  destruct (Shutdown_returns
              (context.WithTimeout context.Background (clock w)
                 DefaultShutdownTimeout) (clock w) srv (bound w))
    as (srv' & bound' & t & err & Hsh & Hin & Hl & _).
  pose proof (lookup_lt_Some _ _ _ Hsrv) as Hplt.
  pose proof (lookup_lt_Some _ _ _ Hcnt) as Hwlt.
  eexists. split.
  - rewrite (run_cons_Step _ _ _ _ (Step_Stop w last Hc Hcal)).
    erewrite run_cons_Step;
      [ | eapply (Step_Shutdown (Stop_enter w) _ p srv srv' bound' t err);
          [ exact Hc | reflexivity | reflexivity | exact Hp | exact Hsrv
          | exact Hsh ] ].
    erewrite run_cons_Step;
      [ | eapply (Step_Closed _ i g p srv');
          [ exact Hc | exact Hg | exact Hpc
          | simpl; apply list_lookup_insert_eq; exact Hplt | exact Hin ] ].
    erewrite run_cons_Step;
      [ | eapply (Step_Report _ i _ (Some http.ErrServerClosed));
          [ exact Hc
          | simpl; rewrite list_lookup_alter_eq, Hg; reflexivity
          | reflexivity ] ].
    erewrite run_cons_Step;
      [ | eapply (Step_Done _ i _ false 1%Z 0%Z);
          [ exact Hc
          | simpl; rewrite !list_lookup_alter_eq, Hg; reflexivity
          | reflexivity | exact Hcnt | reflexivity ] ].
    erewrite run_cons_Step;
      [ | eapply (Step_Wait _ _ (g_wg g) 0%Z);
          [ exact Hc | reflexivity | reflexivity | exact Hwg
          | simpl; apply list_lookup_insert_eq; exact Hwlt | reflexivity ] ].
    erewrite run_cons_Step;
      [ | eapply Step_Cancel; [ exact Hc | reflexivity | reflexivity ] ].
    reflexivity.
  - simpl. split; [ reflexivity | ].
    split; [ rewrite !list_lookup_alter_eq, Hg; reflexivity | ].
    split; [ reflexivity | ].
    split; [ apply list_lookup_insert_eq; exact Hwlt | ].
    split; [ | reflexivity ].
    exists srv'. split; [ apply list_lookup_insert_eq; exact Hplt | ].
    split; assumption.
Qed.

Lemma Stop_of_a_serving_plugin_witness :
  ∃ w',
    run [CallStop; RunStop; Run 0; Run 0; Run 0; RunStop; RunStop]
      serving_world = Some w'
    ∧ acc_calls w'
      = [AddError 0 0 "E! Error listening: http: Server closed"].
Proof.
  destruct (Stop_of_a_serving_plugin serving_world 0
              {| g_wg := 0; g_acc := 0; g_pc := pc_Serving 0 |} 0
              {| http.Addr := ":9411"; http.Handler := ["/api/v1/spans"];
                 http.inShutdown := false; http.listening := true;
                 http.busy_until := 150 |} (Some (Returned None)))
    as (w' & Hrun & _ & _ & Hcalls & _);
    [ reflexivity | reflexivity | reflexivity | vm_compute; reflexivity
    | vm_compute; reflexivity | reflexivity | reflexivity
    | vm_compute; reflexivity | ].
  exists w'. split; [ exact Hrun | exact Hcalls ].
Defined.

(** The address [Listen] gives a server it constructs. *)
Lemma listen_addr_nil (router : mux.Router) (w : World) :
  server (zip w) = None →
  listen_addr router w = Some (":" +:+ strconv.Itoa (Port (zip w))).
Proof.
  intros H0. unfold listen_addr, Listen_server. rewrite H0. simpl.
  rewrite list_lookup_middle by reflexivity. reflexivity.
Qed.

(** X7: the listen address determines the port.  Two plugin values for
    which [Listen] constructs the server get the same listen address only if
    their ports are equal, whatever their routers, paths and service
    addresses. *)
Theorem listen_addr_tells_the_port (router1 router2 : mux.Router)
    (w1 w2 : World) :
  server (zip w1) = None → server (zip w2) = None →
  listen_addr router1 w1 = listen_addr router2 w2 →
  Port (zip w1) = Port (zip w2).
Proof.
  intros H1 H2. rewrite (listen_addr_nil _ _ H1), (listen_addr_nil _ _ H2).
  intros [= Heq]. unfold strconv.Itoa in Heq.
  apply (inj pretty). exact Heq.
Qed.

Lemma listen_addr_tells_the_port_witness :
  Port (zip (boot fresh [] 0)) = Port (zip (boot fresh [":80"] 7)).
Proof.
  apply (listen_addr_tells_the_port [] ["/x"]); reflexivity.
Defined.

Lemma starts_cons (l : Label) (ls : list Label) :
  starts (l :: ls) = starts [l] ++ starts ls.
Proof. unfold starts. simpl. destruct l; reflexivity. Qed.

Lemma fmap_g_acc_alter (pc : PC) (i : nat) (l : list Goroutine) :
  g_acc <$> alter (set_pc pc) i l = g_acc <$> l.
Proof.
  apply list_eq. intros j. rewrite !list_lookup_fmap.
  destruct (decide (i = j)) as [<-|Hne].
  - rewrite list_lookup_alter_eq. destruct (l !! i); reflexivity.
  - rewrite list_lookup_alter_ne by exact Hne. reflexivity.
Qed.

(** Only [Start] adds a goroutine, with the accumulator it was given. *)
Lemma Step_accumulators (l : Label) (w w' : World) :
  Step l w w' →
  g_acc <$> goroutines w' = (g_acc <$> goroutines w) ++ starts [l].
Proof.
  intros HS. Step_cases HS; try destruct panicking; simpl;
    rewrite ?app_nil_r, ?fmap_g_acc_alter; try reflexivity.
  - destruct (handler (zip w)); simpl; rewrite fmap_app; reflexivity.
  - unfold Listen_server. destruct (server (zip w)); reflexivity.
  - destruct err; reflexivity.
Qed.

Lemma run_accumulators (ls : list Label) (w w' : World) :
  run ls w = Some w' →
  g_acc <$> goroutines w' = (g_acc <$> goroutines w) ++ starts ls.
Proof.
  revert w. induction ls as [|l ls IH]; intros w Hrun; simpl in Hrun.
  - injection Hrun as <-. simpl. rewrite app_nil_r. reflexivity.
  - destruct (step l w) as [w1|] eqn:Hstep; simpl in Hrun; [ | discriminate ].
    rewrite (starts_cons l ls), app_assoc.
    rewrite <- (Step_accumulators l w w1 (step_Step l w w1 Hstep)).
    exact (IH w1 Hrun).
Qed.

(** X9: the report of a goroutine goes to the accumulator of its own
    [Start].  In every world reached from a process start the goroutines
    hold, in order, the accumulators given to the calls of [Start] in the
    schedule, and every call of [AddError] that [Listen] has made was made
    by some goroutine [i] on the accumulator given to the [i]-th [Start],
    with a message that begins with E! Error listening: a later [Start]
    with another accumulator does not redirect an earlier goroutine. *)
Theorem Listen_reports_to_its_own_accumulator (ls : list Label)
    (w0 w : World) (last : option Outcome) :
  crashed w0 = false → goroutines w0 = [] → wgs w0 = [] →
  acc_calls w0 = [] → caller w0 = Idle last →
  run ls w0 = Some w →
  g_acc <$> goroutines w = starts ls
  ∧ ∀ c, c ∈ acc_calls w →
      ∃ i acc e,
        c = AddError i acc ("E! Error listening: " +:+ e)
        ∧ starts ls !! i = Some acc
        ∧ g_acc <$> goroutines w !! i = Some acc.
Proof.
  intros Hc Hg Hw Ha Hcal Hrun.
  pose proof (run_accumulators ls w0 w Hrun) as Haccs.
  rewrite Hg in Haccs. simpl in Haccs.
  split; [ exact Haccs | ].
  intros c Hin.
  pose proof (run_sound ls w0 w last Hc Hg Hw Hcal Hrun) as Hs.
  pose proof (run_reports_ok ls w0 w Hrun (reports_ok_init w0 Hg Ha)
                (made_by c)) as Hrep.
  assert (Hmine : c ∈ reported_by (made_by c) (acc_calls w)).
  { unfold reported_by. apply list_elem_of_filter. split; [ reflexivity | ].
    exact Hin. }
  unfold report_ok in Hrep.
  destruct (goroutines w !! made_by c) as [g|] eqn:Hgi.
  - destruct (sound_goroutine w Hs _ g Hgi) as (_ & _ & Hpan & _).
    assert (Hg_acc : starts ls !! made_by c = Some (g_acc g)).
    { rewrite <- Haccs, list_lookup_fmap, Hgi. reflexivity. }
    destruct (g_pc g) as [ | | | | | |[e|]|[|]| | ];
      try (rewrite Hrep in Hmine; apply elem_of_nil in Hmine; contradiction);
      try contradiction; try discriminate;
      destruct Hrep as [e' Hrep]; rewrite Hrep in Hmine;
      apply list_elem_of_singleton in Hmine;
      exists (made_by c), (g_acc g), e'; rewrite Hgi;
      repeat split; first [ assumption | reflexivity ].
  - rewrite Hrep in Hmine. apply elem_of_nil in Hmine. contradiction.
Qed.

Lemma Listen_reports_to_its_own_accumulator_witness :
  ∃ i acc e,
    AddError 1 3 ("E! Error listening: " +:+ http.ErrAddrInUse ":9411")
    = AddError i acc ("E! Error listening: " +:+ e)
    ∧ starts [CallStart 7; Run 0; Run 0; Run 0; Run 0;
              CallStart 3; Run 1; Run 1; Run 1; Run 1; Run 1] !! i = Some acc
    ∧ g_acc <$> goroutines twice_started_world !! i = Some acc.
Proof.
  destruct (Listen_reports_to_its_own_accumulator
              [CallStart 7; Run 0; Run 0; Run 0; Run 0;
               CallStart 3; Run 1; Run 1; Run 1; Run 1; Run 1]
              (boot fresh [] 0) twice_started_world None)
    as [_ Hcalls];
    [ reflexivity | reflexivity | reflexivity | reflexivity | reflexivity
    | vm_compute; reflexivity | ].
  apply Hcalls. vm_compute. apply list_elem_of_here.
Defined.

Lemma digit_pretty_N_char (d : N) :
  (d < 10)%N → http.digit (pretty_N_char d) = Some d.
Proof.
  intros Hd.
  assert (d = 0 ∨ d = 1 ∨ d = 2 ∨ d = 3 ∨ d = 4 ∨ d = 5 ∨ d = 6 ∨ d = 7
          ∨ d = 8 ∨ d = 9)%N as Hcases by lia.
  repeat (destruct Hcases as [->|Hcases]; [ reflexivity | ]).
  subst d. reflexivity.
Qed.

(** Reading the decimal form of a number gives the number back. *)
Lemma number_pretty_N_go (x : N) (s : string) :
  http.number (pretty_N_go x s) 0 = http.number s x.
Proof.
  revert s. induction (N.lt_wf_0 x) as [x _ IH]. intros s.
  destruct (decide (x = 0)%N) as [->|Hne].
  - rewrite pretty_N_go_0. reflexivity.
  - rewrite pretty_N_go_step by lia.
    rewrite IH by (apply N.div_lt; lia). simpl.
    rewrite digit_pretty_N_char by (apply N.mod_lt; lia). simpl.
    f_equal. rewrite (N.div_mod x 10) at 3 by lia. lia.
Qed.

Lemma number_no_colon (s : string) (acc n : N) :
  http.number s acc = Some n → http.port_text s = None.
Proof.
  revert acc. induction s as [|c s IH]; intros acc H; simpl in *.
  - reflexivity.
  - destruct (http.digit c) as [d|] eqn:Hd; simpl in H; [ | discriminate ].
    rewrite (IH _ H).
    destruct (Ascii.eqb c ":") eqn:Hc; [ | reflexivity ].
    apply Ascii.eqb_eq in Hc. subst c. discriminate.
Qed.

Lemma port_kind_digits (s : string) (n : N) :
  http.number s 0 = Some n → (0 < n ≤ 65535)%N →
  http.port_kind (String ":" s) = http.Fixed.
Proof.
  intros Hnum [Hlo Hhi]. unfold http.port_kind. simpl.
  rewrite (number_no_colon _ 0 _ Hnum).
  assert (Hbody :
    match s with
    | String "-"%char rest => (true, rest)
    | String "+"%char rest => (false, rest)
    | _ => (false, s)
    end = (false, s)).
  { destruct s as [|c rest]; [ reflexivity | ].
    simpl in Hnum. destruct (http.digit c) as [d|] eqn:Hd;
      [ | discriminate ].
    destruct c as [[] [] [] [] [] [] [] []]; try reflexivity;
      discriminate. }
  rewrite Hbody, Hnum.
  destruct (N.eqb_spec n 0); [ lia | ].
  destruct (N.ltb_spec 65535 n); [ lia | reflexivity ].
Qed.

(** The address [Listen] builds for a port from 1 to 65535 names that port. *)
Lemma port_kind_Itoa (port : Z) :
  (0 < port ≤ 65535)%Z →
  http.port_kind (":" +:+ strconv.Itoa port) = http.Fixed.
Proof.
  intros [Hlo Hhi]. destruct port as [|x|x]; try lia.
  apply (port_kind_digits _ (N.pos x)); [ | lia ].
  unfold strconv.Itoa, pretty, pretty_Z, pretty, pretty_positive, pretty,
    pretty_N.
  destruct (decide (N.pos x = 0%N)) as [H0|_]; [ discriminate | ].
  apply (number_pretty_N_go (N.pos x) EmptyString).
Qed.
(** [Start] when a handler is configured. *)
Lemma Start_with_handler (acc : Accumulator) (w : World) (h : Handler) :
  handler (zip w) = Some h →
  (Start acc w).1
  = go {| g_wg := length (wgs w); g_acc := acc; g_pc := pc_Add |}
      (with_zip (set_waitGroup (Some (length (wgs w))) (zip w))
         (with_wgs (wgs w ++ [sync.zero]) (log_Println "starting..." w))).
Proof. intros Hh. unfold Start. simpl. rewrite Hh. reflexivity. Qed.

Lemma bind_taken (srv : http.Server) (bound : list string) :
  http.inShutdown srv = false →
  http.port_kind (http.listen_on srv) = http.Fixed →
  http.listen_on srv ∈ bound →
  http.bind srv bound
  = (srv, bound, Some (http.ErrAddrInUse (http.listen_on srv))).
Proof.
  intros Hin Hkind Hb. unfold http.bind. rewrite Hin, Hkind.
  rewrite bool_decide_eq_true_2 by exact Hb. reflexivity.
Qed.

Lemma listen_on_Itoa (srv : http.Server) (port : Z) :
  http.Addr srv = ":" +:+ strconv.Itoa port →
  http.listen_on srv = http.Addr srv.
Proof. intros H. unfold http.listen_on. rewrite H. reflexivity. Qed.

(** X11: a [Start] on a plugin that already serves on a fixed port.  When
    the server [z.server] points to has the address that [Listen] builds for
    a port from 1 to 65535, is not shut down, and that address is bound, the
    schedule in which the new goroutine runs through goes to its end: the
    handler and the server are kept, the goroutine calls [ListenAndServe] on
    the server that is in use, the bind fails because the address is taken,
    the goroutine reports that one error to the accumulator it was given
    and exits, and servers, bound addresses and the goroutines that were
    there are as before.  [z.waitGroup] now is the wait group of the
    goroutine that has exited. *)
Theorem Start_while_serving (w : World) (acc : Accumulator) (h : Handler)
    (p : ptr) (srv : http.Server) (port : Z) (last : option Outcome) :
  crashed w = false →
  caller w = Idle last →
  handler (zip w) = Some h →
  server (zip w) = Some p →
  servers w !! p = Some srv →
  http.inShutdown srv = false →
  http.Addr srv = ":" +:+ strconv.Itoa port →
  (0 < port ≤ 65535)%Z →
  http.Addr srv ∈ bound w →
  let k := length (goroutines w) in
  ∃ w',
    run [CallStart acc; Run k; Run k; Run k; Run k; Run k; Run k] w = Some w'
    ∧ goroutines w' !! k
      = Some {| g_wg := length (wgs w); g_acc := acc; g_pc := pc_Exit |}
    ∧ (∀ j, j < k → goroutines w' !! j = goroutines w !! j)
    ∧ acc_calls w'
      = acc_calls w
        ++ [AddError k acc
              ("E! Error listening: " +:+ http.ErrAddrInUse (http.Addr srv))]
    ∧ servers w' = servers w
    ∧ bound w' = bound w
    ∧ server (zip w') = Some p
    ∧ waitGroup (zip w') = Some (length (wgs w))
    ∧ wgs w' !! length (wgs w) = Some 0%Z.
Proof.
  intros Hc Hcal Hh Hp Hsrv Hin Haddr Hport Hb k.
  pose proof (listen_on_Itoa srv port Haddr) as Hon.
  assert (Hbind : http.bind srv (bound w)
                  = (srv, bound w, Some (http.ErrAddrInUse (http.Addr srv)))).
  { rewrite <- Hon. apply bind_taken; rewrite ?Hon; try assumption.
    rewrite Haddr. apply port_kind_Itoa. exact Hport. }
  assert (Hk : ∀ g0 : Goroutine, (goroutines w ++ [g0]) !! k = Some g0).
  { intros g0. apply list_lookup_middle. reflexivity. }
  assert (Hwk : ∀ n : sync.WaitGroup,
            (wgs w ++ [n]) !! length (wgs w) = Some n).
  { intros n. apply list_lookup_middle. reflexivity. }
  assert (Hwlt : length (wgs w) < length (wgs w ++ [sync.zero])).
  { rewrite length_app. simpl. lia. }
  eexists. split.
  - rewrite (run_cons_Step _ _ _ _ (Step_Start acc w last Hc Hcal)).
    rewrite (Start_with_handler acc w h Hh).
    erewrite run_cons_Step;
      [ | eapply (Step_Add _ k _ 0%Z 1%Z);
          [ exact Hc | simpl; apply Hk | reflexivity | simpl; apply Hwk
          | reflexivity ] ].
    erewrite run_cons_Step;
      [ | eapply (Step_Register _ k);
          [ exact Hc | simpl; rewrite list_lookup_alter_eq, Hk; reflexivity
          | reflexivity
          | simpl; apply (Listen_Register_ignores_error _ _ h); exact Hh ] ].
    erewrite run_cons_Step;
      [ | eapply (Step_Server _ k);
          [ exact Hc
          | simpl; rewrite !list_lookup_alter_eq, Hk; reflexivity
          | reflexivity ] ].
    rewrite (Listen_server_Some _ _ p) by exact Hp.
    erewrite run_cons_Step;
      [ | eapply (Step_Listen _ k _ p srv srv (bound w));
          [ exact Hc
          | simpl; rewrite !list_lookup_alter_eq, Hk; reflexivity
          | reflexivity | exact Hp | exact Hsrv
          | exact Hbind ] ].
    erewrite run_cons_Step;
      [ | eapply (Step_Report _ k);
          [ exact Hc
          | simpl; rewrite !list_lookup_alter_eq, Hk; reflexivity
          | reflexivity ] ].
    erewrite run_cons_Step;
      [ | eapply (Step_Done _ k _ false 1%Z 0%Z);
          [ exact Hc
          | simpl; rewrite !list_lookup_alter_eq, Hk; reflexivity
          | reflexivity
          | simpl; apply list_lookup_insert_eq; exact Hwlt
          | reflexivity ] ].
    reflexivity.
  - simpl. split; [ rewrite !list_lookup_alter_eq, Hk; reflexivity | ].
    split.
    { intros j Hj. rewrite !list_lookup_alter_ne by (unfold k in *; lia).
      apply lookup_app_l. exact Hj. }
    split; [ reflexivity | ].
    split; [ apply list_insert_id; exact Hsrv | ].
    split; [ reflexivity | ]. split; [ exact Hp | ].
    split; [ reflexivity | ].
    apply list_lookup_insert_eq. rewrite length_insert. exact Hwlt.
Qed.

Lemma Start_while_serving_witness :
  ∃ w',
    run [CallStart 3; Run 1; Run 1; Run 1; Run 1; Run 1; Run 1] serving_world
    = Some w'
    ∧ acc_calls w'
      = [AddError 1 3
           ("E! Error listening: " +:+ http.ErrAddrInUse ":9411")].
Proof.
  destruct (Start_while_serving serving_world 3
              (NewSpanHandler "/api/v1/spans") 0
              {| http.Addr := ":9411"; http.Handler := ["/api/v1/spans"];
                 http.inShutdown := false; http.listening := true;
                 http.busy_until := 150 |} 9411 (Some (Returned None)))
    as (w' & Hrun & _ & _ & Hcalls & _);
    [ reflexivity | reflexivity | reflexivity | reflexivity
    | vm_compute; reflexivity | reflexivity | reflexivity | lia
    | vm_compute; apply list_elem_of_here | ].
  exists w'. split; [ exact Hrun | exact Hcalls ].
Defined.
